(** * IDBNoJournalFile: a rollback journal that stores only page numbers

    Shallow embedding of the journal file class of wa-sqlite
    (class [IDBNoJournalFile]).  The class keeps the journal header and the
    list of journaled page numbers; an entry that SQLite reads back is
    rebuilt from the database file's IndexedDB object store.

    The embedding follows the JavaScript text statement by statement:
    mutable fields are a record threaded through a state-and-exception
    monad, typed arrays are lists of bytes with the range checks of the
    ECMAScript methods, and the sparse [pageIndexes] array is a finite map
    with a [length]. *)

From stdpp Require Import gmap strings list.
From Stdlib Require Import ZArith Lia.

Local Open Scope Z_scope.

(** ** JavaScript values used by the class *)

Module JS.

(** Numbers.  Every number the class computes is an integer below 2^53
    (exact in a double) or [NaN]; a field that is still [undefined]
    ([nonce] before the first header) enters arithmetic as [NaN]. *)
Inductive num : Type :=
| NaN
| Num (z : Z).

Definition add (a b : num) : num :=
  match a, b with Num x, Num y => Num (x + y) | _, _ => NaN end.

Definition sub (a b : num) : num :=
  match a, b with Num x, Num y => Num (x - y) | _, _ => NaN end.

Definition mul (a b : num) : num :=
  match a, b with Num x, Num y => Num (x * y) | _, _ => NaN end.

(** [a / b], kept to its integer part: the class either truncates the
    quotient at once ([| 0]) or divides where the remainder was just
    tested to be zero.  A quotient that is not finite is [NaN], which
    [| 0] also sends to 0. *)
Definition div (a b : num) : num :=
  match a, b with
  | Num x, Num y => if y =? 0 then NaN else Num (Z.quot x y)
  | _, _ => NaN
  end.

(** [a % b]: the remainder has the sign of the dividend. *)
Definition rem (a b : num) : num :=
  match a, b with
  | Num x, Num y => if y =? 0 then NaN else Num (Z.rem x y)
  | _, _ => NaN
  end.

(** [a >= b] and [a > b] are false as soon as one side is [NaN]. *)
Definition ge (a b : num) : bool :=
  match a, b with Num x, Num y => y <=? x | _, _ => false end.

Definition gt (a b : num) : bool :=
  match a, b with Num x, Num y => y <? x | _, _ => false end.

(** [a === 0]. *)
Definition is_zero (a : num) : bool :=
  match a with Num 0 => true | _ => false end.

(** [a || b] on numbers: [a] unless it is 0 or [NaN]. *)
Definition or_else (a b : num) : num :=
  match a with
  | NaN => b
  | Num z => if z =? 0 then b else a
  end.

(** ToInt32, the conversion behind [x | 0]. *)
Definition to_int32 (a : num) : Z :=
  match a with
  | NaN => 0
  | Num z => (z + 2 ^ 31) mod 2 ^ 32 - 2 ^ 31
  end.

(** ToUint32, the conversion behind [DataView.setUint32]. *)
Definition to_uint32 (a : num) : Z :=
  match a with
  | NaN => 0
  | Num z => z mod 2 ^ 32
  end.

(** ToIntegerOrInfinity on the numbers above. *)
Definition to_integer (a : num) : Z :=
  match a with NaN => 0 | Num z => z end.

(** Bytes are kept as their bit pattern 0..255: an [Int8Array] and a
    [Uint8Array] over the same bytes differ only in how an element is
    read as a number, and the class reads elements as numbers in two
    places: the truth value of [pData.value[0]] (the same for both
    readings) and the checksum loop, which reads a [Uint8Array]. *)
Definition byte := Z.

Definition is_byte (b : byte) : Prop := 0 <= b < 256.

Definition zlen {A} (l : list A) : Z := Z.of_nat (length l).

(** Exceptions the class can raise. *)
Inductive exn : Type :=
| RangeError
| TypeError
| DataError
| Error (msg : string).

(** [new Int8Array(n)]: [n] zero bytes; [NaN] counts as 0 and a negative
    length is a [RangeError]. *)
Definition new_Int8Array (n : num) : exn + list byte :=
  match n with
  | NaN => inr []
  | Num z => if z <? 0 then inl RangeError else inr (replicate (Z.to_nat z) 0)
  end.

(** A relative index of [subarray], [slice] and [fill], clamped to the
    array: negative indexes count from the end. *)
Definition clamp_index (len i : Z) : Z :=
  if i <? 0 then Z.max (len + i) 0 else Z.min i len.

(** [l.subarray(b, e)] (and [l.slice(b, e)], which copies the same
    elements). *)
Definition subarray (l : list byte) (b e : num) : list byte :=
  let b' := clamp_index (zlen l) (to_integer b) in
  let e' := clamp_index (zlen l) (to_integer e) in
  take (Z.to_nat (e' - b')) (drop (Z.to_nat b') l).

(** [l.fill(v, start)]: overwrite from [start] to the end. *)
Definition fill (l : list byte) (v : byte) (start : num) : list byte :=
  let s := clamp_index (zlen l) (to_integer start) in
  take (Z.to_nat s) l ++ replicate (Z.to_nat (zlen l - s)) v.

(** [target.set(src, off)]: copy [src] over [target] at [off]; a copy
    that does not fit is a [RangeError] and writes nothing. *)
Definition set (target src : list byte) (off : Z) : exn + list byte :=
  if (off <? 0) || (zlen target <? zlen src + off) then inl RangeError
  else inr (take (Z.to_nat off) target ++ src
            ++ drop (Z.to_nat (off + zlen src)) target).

(** The four bytes of a 32-bit value, most significant first. *)
Definition be32 (v : Z) : list byte :=
  [ (v / 2 ^ 24) mod 256; (v / 2 ^ 16) mod 256; (v / 2 ^ 8) mod 256; v mod 256 ].

Definition of_be32 (b0 b1 b2 b3 : byte) : Z :=
  b0 * 2 ^ 24 + b1 * 2 ^ 16 + b2 * 2 ^ 8 + b3.

(** [new DataView(buf).getUint32(off)], big-endian. *)
Definition getUint32 (buf : list byte) (off : Z) : exn + Z :=
  if off <? 0 then inl RangeError
  else match drop (Z.to_nat off) buf with
       | b0 :: b1 :: b2 :: b3 :: _ => inr (of_be32 b0 b1 b2 b3)
       | _ => inl RangeError
       end.

(** [new DataView(buf).setUint32(off, v)], big-endian; the offset goes
    through ToIndex, so [NaN] is 0. *)
Definition setUint32 (buf : list byte) (off : num) (v : num) : exn + list byte :=
  let o := to_integer off in
  if (o <? 0) || (zlen buf <? o + 4) then inl RangeError
  else set buf (be32 (to_uint32 v)) o.

(** [a[i]] on a typed array: [undefined] outside the array. *)
Definition index (l : list byte) (i : Z) : option byte :=
  if i <? 0 then None else l !! Z.to_nat i.

(** The truth value of [a[0]]. *)
Definition truthy (o : option byte) : bool :=
  match o with
  | Some b => negb (b =? 0)
  | None => false
  end.

(** A sparse array of numbers: its integer-keyed properties and its
    [length].  Assigning at an array index at or beyond [length] extends
    [length]; any other key is a plain property. *)
Record array : Type := Array {
  props : gmap Z Z;
  length_ : Z
}.

Definition empty_array : array := Array ∅ 0.

Definition array_get (a : array) (i : Z) : option Z := props a !! i.

Definition array_set (a : array) (i v : Z) : array :=
  Array (<[i := v]> (props a))
        (if (0 <=? i) && (i <? 2 ^ 32 - 1) && (length_ a <=? i)
         then i + 1 else length_ a).

End JS.

(** Result codes of [VFS.js], kept as names. *)
Module VFS.
Inductive code : Type :=
| SQLITE_OK
| SQLITE_IOERR_SHORT_READ.
End VFS.

(** The [pData] argument of [xRead] and [xWrite]: [{ size, value }], where
    [value] is a view into a larger buffer; [rest] is what that buffer
    holds after the view (a [DataView] made from [value.buffer] and
    [value.byteOffset] reaches it). *)
Module PData.
Record t : Type := Make {
  size : Z;
  value : list JS.byte;
  rest : list JS.byte
}.

(** The shape the file system layer passes: [size] is the length of
    [value]. *)
Definition well_formed (p : t) : Prop := size p = JS.zlen (value p).
End PData.

(** ** The sibling database file and its object store *)

(** What the journal uses of an open database file: its name and the
    handle of its IndexedDB connection. *)
Record DbFile : Type := {
  db_name : string;
  db_idb : Z
}.

(** The object store behind [dbFile.idb], as [database.get] sees it: the
    [data] of the block stored under the key [[name, index]]. *)
Abbreviation Store := (gmap (string * Z) (list JS.byte)).

(** ** The journal file object *)

Record File : Type := {
  headerSector : list JS.byte;
  sectorSize : JS.num;
  pageSize : JS.num;
  pageIndexes : JS.array;
  cachedPageIndex : Z;
  cachedPageEntry : option (list JS.byte);   (* [None] is [null] *)
  nonce : JS.num;
  dbFileId : Z;
  dbFile : DbFile;
  idb : Z;
  flags : option Z;
  metadata : option string                    (* [{ name }] *)
}.

Definition set_headerSector (v : list JS.byte) (f : File) : File :=
  {| headerSector := v; sectorSize := sectorSize f; pageSize := pageSize f;
     pageIndexes := pageIndexes f; cachedPageIndex := cachedPageIndex f;
     cachedPageEntry := cachedPageEntry f; nonce := nonce f;
     dbFileId := dbFileId f; dbFile := dbFile f; idb := idb f;
     flags := flags f; metadata := metadata f |}.

Definition set_sectorSize (v : JS.num) (f : File) : File :=
  {| headerSector := headerSector f; sectorSize := v; pageSize := pageSize f;
     pageIndexes := pageIndexes f; cachedPageIndex := cachedPageIndex f;
     cachedPageEntry := cachedPageEntry f; nonce := nonce f;
     dbFileId := dbFileId f; dbFile := dbFile f; idb := idb f;
     flags := flags f; metadata := metadata f |}.

Definition set_pageSize (v : JS.num) (f : File) : File :=
  {| headerSector := headerSector f; sectorSize := sectorSize f; pageSize := v;
     pageIndexes := pageIndexes f; cachedPageIndex := cachedPageIndex f;
     cachedPageEntry := cachedPageEntry f; nonce := nonce f;
     dbFileId := dbFileId f; dbFile := dbFile f; idb := idb f;
     flags := flags f; metadata := metadata f |}.

Definition set_pageIndexes (v : JS.array) (f : File) : File :=
  {| headerSector := headerSector f; sectorSize := sectorSize f;
     pageSize := pageSize f; pageIndexes := v;
     cachedPageIndex := cachedPageIndex f;
     cachedPageEntry := cachedPageEntry f; nonce := nonce f;
     dbFileId := dbFileId f; dbFile := dbFile f; idb := idb f;
     flags := flags f; metadata := metadata f |}.

Definition set_cachedPageIndex (v : Z) (f : File) : File :=
  {| headerSector := headerSector f; sectorSize := sectorSize f;
     pageSize := pageSize f; pageIndexes := pageIndexes f;
     cachedPageIndex := v; cachedPageEntry := cachedPageEntry f;
     nonce := nonce f; dbFileId := dbFileId f; dbFile := dbFile f;
     idb := idb f; flags := flags f; metadata := metadata f |}.

Definition set_cachedPageEntry (v : option (list JS.byte)) (f : File) : File :=
  {| headerSector := headerSector f; sectorSize := sectorSize f;
     pageSize := pageSize f; pageIndexes := pageIndexes f;
     cachedPageIndex := cachedPageIndex f; cachedPageEntry := v;
     nonce := nonce f; dbFileId := dbFileId f; dbFile := dbFile f;
     idb := idb f; flags := flags f; metadata := metadata f |}.

Definition set_nonce (v : JS.num) (f : File) : File :=
  {| headerSector := headerSector f; sectorSize := sectorSize f;
     pageSize := pageSize f; pageIndexes := pageIndexes f;
     cachedPageIndex := cachedPageIndex f;
     cachedPageEntry := cachedPageEntry f; nonce := v;
     dbFileId := dbFileId f; dbFile := dbFile f; idb := idb f;
     flags := flags f; metadata := metadata f |}.

Definition set_open (fl : Z) (name : string) (f : File) : File :=
  {| headerSector := headerSector f; sectorSize := sectorSize f;
     pageSize := pageSize f; pageIndexes := pageIndexes f;
     cachedPageIndex := cachedPageIndex f;
     cachedPageEntry := cachedPageEntry f; nonce := nonce f;
     dbFileId := dbFileId f; dbFile := dbFile f; idb := idb f;
     flags := Some fl; metadata := Some name |}.

(** [get entrySize() { return this.pageSize + 8; }] *)
Definition entrySize (f : File) : JS.num := JS.add (pageSize f) (JS.Num 8).

(** ** Effects

    What a method does besides changing the object: calls on the sibling
    database file and its store, and console output. *)
Inductive event : Type :=
| Get (idb : Z) (name : string) (index : JS.num)   (* [database.get([name, index])] *)
| Commit (f : DbFile)                              (* [dbFile.commit()] *)
| ConsoleWarn (msg : string)
| ConsoleAssert.                                   (* a failed [console.assert] *)

Inductive completion (A : Type) : Type :=
| Normal (a : A)
| Throw (e : JS.exn).
Arguments Normal {A} a.
Arguments Throw {A} e.

(** The state a method runs in: the object, the bytes of [pData.value]
    (the destination of a read) and the effects so far, oldest first. *)
Record World : Type := {
  this : File;
  data : list JS.byte;
  log : list event
}.

Definition M (A : Type) : Type := World -> completion A * World.

#[global] Instance M_ret : MRet M := fun A a w => (Normal a, w).

#[global] Instance M_bind : MBind M := fun A B k m w =>
  match m w with
  | (Normal a, w') => k a w'
  | (Throw e, w') => (Throw e, w')
  end.

Definition throw {A} (e : JS.exn) : M A := fun w => (Throw e, w).

Definition self : M File := fun w => (Normal (this w), w).

Definition update (g : File -> File) : M unit := fun w =>
  (Normal tt, {| this := g (this w); data := data w; log := log w |}).

Definition read_data : M (list JS.byte) := fun w => (Normal (data w), w).

Definition write_data (v : list JS.byte) : M unit := fun w =>
  (Normal tt, {| this := this w; data := v; log := log w |}).

Definition emit (e : event) : M unit := fun w =>
  (Normal tt, {| this := this w; data := data w; log := log w ++ [e] |}).

(** A step that returns or raises. *)
Definition lift {A} (r : JS.exn + A) : M A :=
  match r with
  | inl e => throw e
  | inr a => mret a
  end.

(** Run a method on an object, with [pData.value] holding [v]. *)
Definition run {A} (m : M A) (f : File) (v : list JS.byte) : completion A * World :=
  m {| this := f; data := v; log := [] |}.

(** ** The constructor *)

Definition journal_suffix : string := "-journal".

(** [name.replace(/-journal$/, '')]: the pattern is anchored at the end of
    the name, so at most the last eight characters go. *)
Definition strip_journal (name : string) : string :=
  let n := String.length name in
  let k := String.length journal_suffix in
  if (k <=? n)%nat && String.eqb (String.substring (n - k) k name) journal_suffix
  then String.substring 0 (n - k) name
  else name.

(** One turn of [for (const [dbFileId, dbFile] of mapIdToFile)]: a file
    with the wanted name replaces the binding found so far. *)
Definition bind_step (dbName : string) (found : option (Z * DbFile))
    (entry : Z * DbFile) : option (Z * DbFile) :=
  if String.eqb (db_name entry.2) dbName then Some entry else found.

Definition find_dbFile (dbName : string) (mapIdToFile : list (Z * DbFile))
    : option (Z * DbFile) :=
  foldl (bind_step dbName) None mapIdToFile.

Definition double_quote : string := String (Ascii.ascii_of_nat 34) EmptyString.

(** The message of the error: open database, a double quote, the name,
    not found. *)
Definition not_found_message (dbName : string) : string :=
  "open database " +:+ double_quote +:+ dbName +:+ " not found".

(** [constructor(name, mapIdToFile)], with the field initialisers of the
    class.  [mapIdToFile] is the [Map] in iteration order. *)
Definition constructor (name : string) (mapIdToFile : list (Z * DbFile))
    : completion File :=
  let dbName := strip_journal name in
  match find_dbFile dbName mapIdToFile with
  | Some (id, f) =>
      Normal {| headerSector := [];
                sectorSize := JS.NaN;
                pageSize := JS.NaN;
                pageIndexes := JS.empty_array;
                cachedPageIndex := 0;
                cachedPageEntry := None;
                nonce := JS.NaN;
                dbFileId := id;
                dbFile := f;
                idb := db_idb f;
                flags := None;
                metadata := None |}
  | None => Throw (JS.Error (not_found_message dbName))
  end.

(** ** The methods *)

(** [xOpen(name, fileId, flags, pOutFlags)]; the result carries what
    [pOutFlags.set] received. *)
Definition xOpen (name : string) (fileId : Z) (fl : Z) : M (Z * VFS.code) :=
  update (set_open fl name);;
  mret (0, VFS.SQLITE_OK).

Definition xClose : M VFS.code := mret VFS.SQLITE_OK.

(** The loop of [#checksum]: [while (x > 0) { result += data[x]; x -= 200; }].
    [fuel] bounds the number of turns; [checksum_fuel] below is always
    enough (lemma [checksum_loop_fuel]). *)
Fixpoint checksum_loop (fuel : nat) (bytes : list JS.byte) (result x : JS.num)
    : JS.num :=
  match fuel with
  | O => result
  | S fuel' =>
      if JS.gt x (JS.Num 0)
      then checksum_loop fuel' bytes
             (JS.add result (from_option JS.Num JS.NaN (JS.index bytes (JS.to_integer x))))
             (JS.sub x (JS.Num 200))
      else result
  end.

Definition checksum_fuel (x : JS.num) : nat := Z.to_nat (JS.to_integer x).

(** [#checksum(data)] *)
Definition checksum (f : File) (bytes : list JS.byte) : JS.num :=
  let result := nonce f in
  let x := JS.sub (pageSize f) (JS.Num 200) in
  checksum_loop (checksum_fuel x) bytes result x.

(** [database.get([name, pageIndex - 1])] followed by [fileBlock.data]: a
    key with no block yields [undefined], whose [data] cannot be read. *)
Definition fetch (db : Store) (p : Z) : M (list JS.byte) :=
  f ← self;
  emit (Get (db_idb (dbFile f)) (db_name (dbFile f)) (JS.Num (p - 1)));;
  match db !! (db_name (dbFile f), p - 1) with
  | None => throw JS.TypeError
  | Some block => mret block
  end.

(** The body of [if (this.cachedPageIndex !== pageIndex)] in [xRead]: fetch
    the page and build its rollback entry in [cachedPageEntry].  An
    [undefined] page index makes the key [[name, NaN]], which IndexedDB
    refuses. *)
Definition rebuild (db : Store) (pageIndex : option Z) : M unit :=
  match pageIndex with
  | None =>
      f ← self;
      emit (Get (db_idb (dbFile f)) (db_name (dbFile f)) JS.NaN);;
      throw JS.DataError
  | Some p =>
      fileBlockData ← fetch db p;
      update (set_cachedPageIndex p);;
      f ← self;
      entry ← lift (JS.new_Int8Array (entrySize f));
      update (set_cachedPageEntry (Some entry));;
      entry ← lift (JS.setUint32 entry (JS.Num 0) (JS.Num p));
      update (set_cachedPageEntry (Some entry));;
      entry ← lift (JS.set entry fileBlockData 4);
      update (set_cachedPageEntry (Some entry));;
      entry ← lift (JS.setUint32 entry (JS.sub (entrySize f) (JS.Num 4))
                      (checksum f fileBlockData));
      update (set_cachedPageEntry (Some entry))
  end.

(** [// Transfer the requested portion of the page entry.]  A
    [cachedPageEntry] that is still [null] has no [subarray]. *)
Definition transfer (iOffset : Z) : M unit :=
  f ← self;
  let skip := JS.rem (JS.sub (JS.Num iOffset) (sectorSize f)) (entrySize f) in
  v ← read_data;
  match cachedPageEntry f with
  | None => throw JS.TypeError
  | Some entry =>
      v' ← lift (JS.set v
                   (JS.subarray entry skip (JS.add skip (JS.Num (JS.zlen v)))) 0);
      write_data v'
  end.

(** [// Read journal header.] *)
Definition read_header (pData : PData.t) (iOffset : Z) : M unit :=
  f ← self;
  v ← read_data;
  v' ← lift (JS.set v
               (JS.subarray (headerSector f) (JS.Num iOffset)
                  (JS.Num (iOffset + PData.size pData))) 0);
  write_data v'.

(** [xRead(fileId, pData, iOffset)].  The method is [async] and awaits
    once, in [rebuild]; calls are taken one at a time, and [db] is the
    object store as it is when the method awaits the fetch. *)
Definition xRead (db : Store) (fileId : Z) (pData : PData.t) (iOffset : Z)
    : M VFS.code :=
  f ← self;
  if JS.ge (JS.Num iOffset)
       (JS.add (sectorSize f)
          (JS.mul (JS.Num (JS.length_ (pageIndexes f))) (entrySize f)))
  then
    v ← read_data;
    write_data (JS.fill v 0 (JS.Num (PData.size pData)));;
    emit (ConsoleWarn "short read");;
    mret VFS.SQLITE_IOERR_SHORT_READ
  else
    (if JS.ge (JS.Num iOffset) (sectorSize f) then
       let entryIndex :=
         JS.to_int32 (JS.div (JS.sub (JS.Num iOffset) (sectorSize f)) (entrySize f)) in
       let pageIndex := JS.array_get (pageIndexes f) entryIndex in
       (if decide (Some (cachedPageIndex f) = pageIndex) then mret tt
        else rebuild db pageIndex);;
       transfer iOffset
     else
       read_header pData iOffset);;
    mret VFS.SQLITE_OK.

(** [// Store header data.]  The buffer grows by the length of the data
    when it is shorter than [iOffset + pData.size]. *)
Definition store_header (pData : PData.t) (iOffset : Z) : M unit :=
  f ← self;
  (if JS.zlen (headerSector f) <? iOffset + PData.size pData then
     let oldJournal := headerSector f in
     fresh ← lift (JS.new_Int8Array
                     (JS.Num (JS.zlen oldJournal + JS.zlen (PData.value pData))));
     update (set_headerSector fresh);;
     grown ← lift (JS.set fresh oldJournal 0);
     update (set_headerSector grown)
   else mret tt);;
  f ← self;
  h ← lift (JS.set (headerSector f) (PData.value pData) iOffset);
  update (set_headerSector h).

(** [// Store the page index for this page entry. The data is discarded.] *)
Definition store_pageIndex (pData : PData.t) (iOffset : Z) : M unit :=
  f ← self;
  let entryIndex := JS.div (JS.sub (JS.Num iOffset) (sectorSize f)) (entrySize f) in
  pageIndex ← lift (JS.getUint32 (PData.value pData ++ PData.rest pData) 0);
  update (set_pageIndexes
            (JS.array_set (pageIndexes f) (JS.to_integer entryIndex) pageIndex)).

(** [// Collect journal layout info from the header.], the branch taken
    when [pData.value[0]] is truthy. *)
Definition collect_layout : M unit :=
  f ← self;
  let view := headerSector f in
  n ← lift (JS.getUint32 view 12);
  update (set_nonce (JS.Num n));;
  s ← lift (JS.getUint32 view 20);
  f ← self;
  update (set_sectorSize (JS.or_else (JS.Num s) (sectorSize f)));;
  p ← lift (JS.getUint32 view 24);
  f ← self;
  update (set_pageSize (JS.or_else (JS.Num p) (sectorSize f))).

(** [xWrite(fileId, pData, iOffset)] *)
Definition xWrite (fileId : Z) (pData : PData.t) (iOffset : Z) : M VFS.code :=
  f ← self;
  (if negb (JS.ge (JS.Num iOffset) (sectorSize f)) then
     store_header pData iOffset
   else if JS.is_zero (JS.rem (JS.sub (JS.Num iOffset) (sectorSize f)) (entrySize f)) then
     store_pageIndex pData iOffset
   else mret tt);;
  (if iOffset =? 0 then
     if JS.truthy (JS.index (PData.value pData) 0) then
       collect_layout
     else
       f ← self;
       emit (Commit (dbFile f))
   else mret tt);;
  mret VFS.SQLITE_OK.

(** [xTruncate(fileId, iSize)]: [console.assert] reports and goes on. *)
Definition xTruncate (fileId : Z) (iSize : Z) : M VFS.code :=
  f ← self;
  (if iSize <=? JS.zlen (headerSector f) then mret tt else emit ConsoleAssert);;
  update (set_headerSector (JS.subarray (headerSector f) (JS.Num 0) (JS.Num iSize)));;
  mret VFS.SQLITE_OK.

Definition xSync (fileId : Z) (fl : Z) : M VFS.code := mret VFS.SQLITE_OK.

(** [const computedLength = this.sectorSize + this.pageIndexes.length *
    this.entrySize], the apparent length of the file. *)
Definition computedLength (f : File) : JS.num :=
  JS.add (sectorSize f)
    (JS.mul (JS.Num (JS.length_ (pageIndexes f))) (entrySize f)).

(** [xFileSize(fileId, pSize64)]; the result carries what [pSize64.set]
    received. *)
Definition xFileSize (fileId : Z) : M (JS.num * VFS.code) :=
  f ← self;
  mret (computedLength f, VFS.SQLITE_OK).

(** ** Sequences of calls *)

(** A call the file system layer makes on an open journal. *)
Inductive call : Type :=
| OpenCall (name : string) (fileId fl : Z)
| CloseCall
| ReadCall (db : Store) (fileId : Z) (pData : PData.t) (iOffset : Z)
| WriteCall (fileId : Z) (pData : PData.t) (iOffset : Z)
| TruncateCall (fileId iSize : Z)
| SyncCall (fileId fl : Z)
| FileSizeCall (fileId : Z).

(** The object after a call, whether the call returned or raised. *)
Definition perform (f : File) (c : call) : File :=
  match c with
  | OpenCall name fileId fl => this (run (xOpen name fileId fl) f []).2
  | CloseCall => this (run xClose f []).2
  | ReadCall db fileId pData iOffset =>
      this (run (xRead db fileId pData iOffset) f (PData.value pData)).2
  | WriteCall fileId pData iOffset =>
      this (run (xWrite fileId pData iOffset) f (PData.value pData)).2
  | TruncateCall fileId iSize => this (run (xTruncate fileId iSize) f []).2
  | SyncCall fileId fl => this (run (xSync fileId fl) f []).2
  | FileSizeCall fileId => this (run (xFileSize fileId) f []).2
  end.

(** The bytes a call hands over are bytes. *)
Definition call_bytes (c : call) : Prop :=
  match c with
  | WriteCall _ pData _ =>
      Forall JS.is_byte (PData.value pData) /\ Forall JS.is_byte (PData.rest pData)
  | _ => True
  end.

(** An object is reachable when the constructor made it and calls with
    proper bytes brought it to its present state. *)
Definition reachable (f : File) : Prop :=
  exists name mapIdToFile f0 calls,
    constructor name mapIdToFile = Normal f0 /\
    Forall call_bytes calls /\
    f = foldl perform f0 calls.

(** A size field is unset or holds a non-zero unsigned 32-bit value. *)
Definition size_field (v : JS.num) : Prop :=
  match v with
  | JS.NaN => True
  | JS.Num z => 0 < z < 2 ^ 32
  end.

Definition is_set (v : JS.num) : Prop :=
  match v with JS.NaN => False | JS.Num _ => True end.

(** What holds of every reachable object. *)
Record invariant (f : File) : Prop := {
  inv_header : Forall JS.is_byte (headerSector f);
  inv_sector : size_field (sectorSize f);
  inv_page : size_field (pageSize f);
  inv_nonce_set : is_set (sectorSize f) -> is_set (nonce f);
  inv_length : 0 <= JS.length_ (pageIndexes f);
  inv_slots : forall i v, JS.array_get (pageIndexes f) i = Some v ->
                0 <= i /\ (i < 2 ^ 32 - 1 -> i < JS.length_ (pageIndexes f))
}.

(** ** The journal format, in the words of its description *)

Definition sum_bytes (l : list Z) : Z := foldr Z.add 0 l.

(** The offsets the checksum samples: pageSize - 200, pageSize - 400, ...
    as long as they are positive. *)
Definition sample_offsets (pageSize : Z) : list Z :=
  map (fun k => pageSize - 200 * Z.of_nat k)
      (seq 1 (Z.to_nat ((pageSize - 1) / 200))).

(** The checksum of a page: the nonce plus the sampled bytes, as an
    unsigned 32-bit value. *)
Definition page_checksum (nonce pageSize : Z) (content : list JS.byte) : Z :=
  (nonce + sum_bytes (map (fun x => nth (Z.to_nat x) content 0)
                          (sample_offsets pageSize))) mod 2 ^ 32.

(** A journal entry on the wire: page number, content, checksum. *)
Definition entry_layout (p : Z) (content : list JS.byte) (cks : Z) : list JS.byte :=
  JS.be32 p ++ content ++ JS.be32 cks.

(** ** Notions used in the statements *)

(** Read from [off] on, one call per destination buffer, each call
    starting where the previous one ended; the result is what the calls
    delivered, in order, or [None] when one of them did not return
    [SQLITE_OK]. *)
Fixpoint read_chunks (db : Store) (f : File) (off : Z) (bufs : list (list JS.byte))
    : option (list JS.byte) * File :=
  match bufs with
  | [] => (Some [], f)
  | b :: bs =>
      match run (xRead db 0 (PData.Make (JS.zlen b) b []) off) f b with
      | (Normal VFS.SQLITE_OK, w) =>
          let '(r, f') := read_chunks db (this w) (off + JS.zlen b) bs in
          (app (data w) <$> r, f')
      | (_, w) => (None, this w)
      end
  end.

(** The slot an [xRead] at [iOffset] looks up, and the page number it
    finds there. *)
Definition entryIndex (f : File) (iOffset : Z) : Z :=
  JS.to_int32 (JS.div (JS.sub (JS.Num iOffset) (sectorSize f)) (entrySize f)).

Definition pageIndex (f : File) (iOffset : Z) : option Z :=
  JS.array_get (pageIndexes f) (entryIndex f iOffset).

(** The part of the file an offset falls in, by the two tests of [xRead]. *)
Inductive region : Type :=
| PastEnd
| Entries
| Header.

Definition region_of (f : File) (iOffset : Z) : region :=
  if JS.ge (JS.Num iOffset) (computedLength f) then PastEnd
  else if JS.ge (JS.Num iOffset) (sectorSize f) then Entries
  else Header.

(** Two objects that differ at most in the reconstruction cache. *)
Definition same_but_cache (f g : File) : Prop :=
  g = set_cachedPageEntry (cachedPageEntry g)
        (set_cachedPageIndex (cachedPageIndex g) f).

Definition is_get (e : event) : bool :=
  match e with Get _ _ _ => true | _ => false end.

(** The store fetches in a log. *)
Definition fetches (l : list event) : list event := filter is_get l.

(** The end of [xRead] once the entries branch has run: [return
    VFS.SQLITE_OK], unless the branch raised. *)
Definition finish (r : completion unit * World) : completion VFS.code * World :=
  match r with
  | (Normal _, w) => (Normal VFS.SQLITE_OK, w)
  | (Throw e, w) => (Throw e, w)
  end.

(** The journal layout is known and slot [i] holds page number [p]. *)
Record slot_ready (f : File) (s ps n i p : Z) : Prop := {
  ready_sector : sectorSize f = JS.Num s;
  ready_page : pageSize f = JS.Num ps;
  ready_nonce : nonce f = JS.Num n;
  ready_ps : 0 <= ps;
  ready_i : 0 <= i < 2 ^ 31;
  ready_slot : JS.array_get (pageIndexes f) i = Some p;
  ready_length : i < JS.length_ (pageIndexes f)
}.

(** The cache does not stand in the way of page [p]: it holds another
    page number, or the entry [e]. *)
Definition cache_serves (f : File) (p : Z) (e : list JS.byte) : Prop :=
  cachedPageIndex f = p -> cachedPageEntry f = Some e.

(** ** Further views of the object *)

(** [get name() { return this.metadata.name; }]: before [xOpen] there is
    no [metadata] to read the name from. *)
Definition get_name : M string :=
  f ← self;
  match metadata f with
  | None => throw JS.TypeError
  | Some name => mret name
  end.

(** The same object with another header buffer. *)
Definition with_header (h : list JS.byte) (w : World) : World :=
  {| this := set_headerSector h (this w); data := data w; log := log w |}.

(** The fields [xWrite] may assign: the header buffer, one slot of the
    ledger, and the three layout fields. *)
Definition written (h : list JS.byte) (pi : JS.array) (n s p : JS.num) (f : File)
    : File :=
  set_pageSize p (set_sectorSize s (set_nonce n
    (set_pageIndexes pi (set_headerSector h f)))).

(** ** A small journal, used in the examples *)

Module Sample.

Definition db : DbFile := {| db_name := "test.db"; db_idb := 1 |}.

Definition registry : list (Z * DbFile) := [(5, db)].

Definition pdata (l : list JS.byte) : PData.t := PData.Make (JS.zlen l) l [].

(** A rollback journal header: magic, page count, nonce, initial size,
    sector size, page size. *)
Definition header (nonce sector page : Z) : list JS.byte :=
  [217; 213; 5; 249; 32; 161; 99; 215] ++ JS.be32 0 ++ JS.be32 nonce
  ++ JS.be32 0 ++ JS.be32 sector ++ JS.be32 page.

(** The object right after [new IDBNoJournalFile("test.db-journal", ...)]. *)
Definition fresh : File :=
  {| headerSector := []; sectorSize := JS.NaN; pageSize := JS.NaN;
     pageIndexes := JS.empty_array; cachedPageIndex := 0;
     cachedPageEntry := None; nonce := JS.NaN; dbFileId := 5;
     dbFile := db; idb := 1; flags := None; metadata := None |}.

(** A transaction starts: nonce 4096, sectors of 32 bytes, pages of 8. *)
Definition started : File := Eval vm_compute in
  perform fresh (WriteCall 0 (pdata (header 4096 32 8)) 0).

(** Page 7 is journaled in slot 0. *)
Definition journaled : File := Eval vm_compute in
  perform started (WriteCall 0 (pdata (JS.be32 7)) 32).

Definition pageA : list JS.byte := [1; 2; 3; 4; 5; 6; 7; 8].
Definition pageB : list JS.byte := [9; 9; 9; 9; 9; 9; 9; 9].

Definition storeA : Store := {[ ("test.db", 6) := pageA ]}.
Definition storeB : Store := {[ ("test.db", 6) := pageB ]}.

(** The entry of slot 0 is read back while the store holds [pageA]. *)
Definition replayed : File := Eval vm_compute in
  perform journaled (ReadCall storeA 0 (pdata (replicate 16 0)) 32).

(** Only the first eight bytes of a header have arrived: the buffer
    holds them and the sizes are still unset. *)
Definition partial : File := Eval vm_compute in
  perform fresh (WriteCall 0 (pdata [217; 213; 5; 249; 32; 161; 99; 215]) 0).

(** A journal with pages of 512 bytes, page 3 in slot 0. *)
Definition wide : File := Eval vm_compute in
  perform (perform fresh (WriteCall 0 (pdata (header 4096 512 512)) 0))
    (WriteCall 0 (pdata (JS.be32 3)) 512).

Definition page512 : list JS.byte :=
  map (fun k => Z.of_nat k mod 256) (seq 0 512).

Definition store512 : Store := {[ ("test.db", 2) := page512 ]}.

End Sample.

Arguments JS.to_int32 : simpl never.
Arguments JS.to_uint32 : simpl never.
Arguments JS.be32 : simpl never.
Arguments JS.of_be32 : simpl never.
Arguments JS.subarray : simpl never.
Arguments JS.fill : simpl never.
Arguments JS.set : simpl never.
Arguments JS.getUint32 : simpl never.
Arguments JS.setUint32 : simpl never.
Arguments JS.new_Int8Array : simpl never.
Arguments JS.array_set : simpl never.
Arguments JS.array_get : simpl never.
Arguments JS.zlen : simpl never.
Arguments JS.index : simpl never.
Arguments checksum : simpl never.
Arguments page_checksum : simpl never.
Arguments sample_offsets : simpl never.

(** ** Proof tactics *)

Ltac red_state :=
  cbn [this data log headerSector sectorSize pageSize pageIndexes
       cachedPageIndex cachedPageEntry nonce dbFileId dbFile idb flags metadata
       set_headerSector set_sectorSize set_pageSize set_pageIndexes
       set_cachedPageIndex set_cachedPageEntry set_nonce set_open
       mret M_ret].

Ltac monad :=
  unfold run, mbind, M_bind, mret, M_ret, self, update, emit, lift, throw,
    read_data, write_data; red_state.

(** ** Facts about the JavaScript primitives *)

Lemma zlen_nonneg {A} (l : list A) : 0 <= JS.zlen l.
Proof. unfold JS.zlen. lia. Qed.

Lemma zlen_app {A} (l k : list A) : JS.zlen (l ++ k) = JS.zlen l + JS.zlen k.
Proof. unfold JS.zlen. rewrite length_app. lia. Qed.

Lemma zlen_replicate {A} (n : Z) (x : A) :
  0 <= n -> JS.zlen (replicate (Z.to_nat n) x) = n.
Proof. intros. unfold JS.zlen. rewrite length_replicate. lia. Qed.

Lemma zlen_be32 v : JS.zlen (JS.be32 v) = 4.
Proof. reflexivity. Qed.

Lemma be32_mod v : JS.be32 (v mod 2 ^ 32) = JS.be32 v.
Proof.
  unfold JS.be32.
  change (2 ^ 24) with 16777216. change (2 ^ 16) with 65536.
  change (2 ^ 8) with 256. change (2 ^ 32) with 4294967296.
  assert (H24 : (v mod 4294967296 / 16777216) mod 256 = (v / 16777216) mod 256)
    by (Z.div_mod_to_equations; lia).
  assert (H16 : (v mod 4294967296 / 65536) mod 256 = (v / 65536) mod 256)
    by (Z.div_mod_to_equations; lia).
  assert (H8 : (v mod 4294967296 / 256) mod 256 = (v / 256) mod 256)
    by (Z.div_mod_to_equations; lia).
  assert (H0 : (v mod 4294967296) mod 256 = v mod 256)
    by (Z.div_mod_to_equations; lia).
  rewrite H24, H16, H8, H0. reflexivity.
Qed.

Lemma of_be32_be32 v :
  0 <= v < 2 ^ 32 ->
  match JS.be32 v with
  | [b0; b1; b2; b3] => JS.of_be32 b0 b1 b2 b3 = v
  | _ => False
  end.
Proof.
  intros Hv. unfold JS.be32, JS.of_be32.
  change (2 ^ 24) with 16777216. change (2 ^ 16) with 65536.
  change (2 ^ 8) with 256. change (2 ^ 32) with 4294967296 in Hv.
  Z.div_mod_to_equations. lia.
Qed.

Lemma be32_bytes v : Forall JS.is_byte (JS.be32 v).
Proof.
  unfold JS.be32, JS.is_byte.
  repeat constructor; apply Z.mod_pos_bound; lia.
Qed.

Lemma of_be32_range b0 b1 b2 b3 :
  JS.is_byte b0 -> JS.is_byte b1 -> JS.is_byte b2 -> JS.is_byte b3 ->
  0 <= JS.of_be32 b0 b1 b2 b3 < 2 ^ 32.
Proof.
  unfold JS.is_byte, JS.of_be32.
  change (2 ^ 24) with 16777216. change (2 ^ 16) with 65536.
  change (2 ^ 8) with 256. change (2 ^ 32) with 4294967296.
  lia.
Qed.

Lemma set_overlay (v src : list JS.byte) :
  JS.zlen src <= JS.zlen v ->
  JS.set v src 0 = inr (src ++ drop (length src) v).
Proof.
  intros H. unfold JS.set.
  pose proof (zlen_nonneg src).
  destruct (Z.ltb_spec (JS.zlen v) (JS.zlen src + 0)); [lia |].
  cbn. replace (Z.to_nat (0 + JS.zlen src)) with (length src)
    by (unfold JS.zlen; lia).
  reflexivity.
Qed.

Lemma set_middle (a b c src : list JS.byte) (off : Z) :
  off = JS.zlen a -> JS.zlen src = JS.zlen b ->
  JS.set (a ++ b ++ c) src off = inr (a ++ src ++ c).
Proof.
  intros -> Hb. unfold JS.set.
  pose proof (zlen_nonneg a).
  destruct (Z.ltb_spec (JS.zlen a) 0); [lia |].
  rewrite !zlen_app.
  destruct (Z.ltb_spec (JS.zlen a + (JS.zlen b + JS.zlen c)) (JS.zlen src + JS.zlen a));
    [pose proof (zlen_nonneg c); lia |].
  cbn. f_equal. unfold JS.zlen in *.
  rewrite Nat2Z.id, take_app_length. f_equal. f_equal.
  replace (Z.to_nat (Z.of_nat (length a) + Z.of_nat (length src)))
    with (length a + length b)%nat by lia.
  rewrite drop_app_add', drop_app_length; [reflexivity | reflexivity].
Qed.

Lemma set_bytes (v src r : list JS.byte) (off : Z) :
  Forall JS.is_byte v -> Forall JS.is_byte src ->
  JS.set v src off = inr r -> Forall JS.is_byte r.
Proof.
  unfold JS.set. intros Hv Hs H.
  destruct ((off <? 0) || (JS.zlen v <? JS.zlen src + off)); [discriminate |].
  injection H as <-.
  rewrite !Forall_app. split; [by apply Forall_take |].
  split; [done | by apply Forall_drop].
Qed.

Lemma subarray_window (l : list JS.byte) (k n : Z) :
  0 <= k -> 0 <= n ->
  JS.subarray l (JS.Num k) (JS.Num (k + n))
  = take (Z.to_nat n) (drop (Z.to_nat k) l).
Proof.
  intros Hk Hn. unfold JS.subarray, JS.clamp_index. cbn.
  destruct (Z.ltb_spec k 0); [lia |].
  destruct (Z.ltb_spec (k + n) 0); [lia |].
  destruct (Z.le_gt_cases k (JS.zlen l)) as [Hle | Hgt].
  - rewrite (Z.min_l k) by lia.
    destruct (Z.le_gt_cases (k + n) (JS.zlen l)).
    + rewrite Z.min_l by lia. f_equal. lia.
    + rewrite Z.min_r by lia.
      rewrite (take_ge _ (Z.to_nat n)); [apply take_ge |];
        rewrite length_drop; unfold JS.zlen in *; lia.
  - rewrite !Z.min_r by lia. rewrite Z.sub_diag. cbn.
    rewrite (drop_ge l (Z.to_nat k)) by (unfold JS.zlen in *; lia).
    by rewrite take_nil.
Qed.

Lemma subarray_zlen (l : list JS.byte) (off n : Z) :
  0 <= n -> JS.zlen (JS.subarray l (JS.Num off) (JS.Num (off + n))) <= n.
Proof.
  intros Hn. unfold JS.subarray, JS.clamp_index. cbn.
  unfold JS.zlen. rewrite length_take, length_drop.
  destruct (Z.ltb_spec off 0); destruct (Z.ltb_spec (off + n) 0); lia.
Qed.

Lemma subarray_bytes (l : list JS.byte) (b e : JS.num) :
  Forall JS.is_byte l -> Forall JS.is_byte (JS.subarray l b e).
Proof. intros H. unfold JS.subarray. by apply Forall_take, Forall_drop. Qed.

Lemma getUint32_at (a rest : list JS.byte) (b0 b1 b2 b3 : JS.byte) (off : Z) :
  off = JS.zlen a ->
  JS.getUint32 (a ++ b0 :: b1 :: b2 :: b3 :: rest) off
  = inr (JS.of_be32 b0 b1 b2 b3).
Proof.
  intros ->. unfold JS.getUint32.
  pose proof (zlen_nonneg a).
  destruct (Z.ltb_spec (JS.zlen a) 0); [lia |].
  unfold JS.zlen. rewrite Nat2Z.id, drop_app_length. reflexivity.
Qed.

Lemma getUint32_range (buf : list JS.byte) (off v : Z) :
  Forall JS.is_byte buf -> JS.getUint32 buf off = inr v -> 0 <= v < 2 ^ 32.
Proof.
  unfold JS.getUint32. intros Hb H.
  destruct (off <? 0); [discriminate |].
  pose proof (Forall_drop _ (Z.to_nat off) _ Hb) as Hd.
  destruct (drop (Z.to_nat off) buf) as [| b0 [| b1 [| b2 [| b3 tl]]]];
    try discriminate.
  injection H as <-.
  inversion Hd as [| ? ? H0 Hd1]; subst.
  inversion Hd1 as [| ? ? H1 Hd2]; subst.
  inversion Hd2 as [| ? ? H2 Hd3]; subst.
  inversion Hd3 as [| ? ? H3 _]; subst.
  by apply of_be32_range.
Qed.

Lemma setUint32_at (buf : list JS.byte) (o : Z) (v : JS.num) :
  0 <= o -> o + 4 <= JS.zlen buf ->
  JS.setUint32 buf (JS.Num o) v
  = inr (take (Z.to_nat o) buf ++ JS.be32 (JS.to_uint32 v)
         ++ drop (Z.to_nat (o + 4)) buf).
Proof.
  intros Ho Hlen. unfold JS.setUint32, JS.set. cbn.
  rewrite zlen_be32.
  destruct (Z.ltb_spec o 0); [lia |].
  destruct (Z.ltb_spec (JS.zlen buf) (o + 4)); [lia |].
  destruct (Z.ltb_spec (JS.zlen buf) (4 + o)); [lia |].
  reflexivity.
Qed.

Lemma substring_all (t : string) : String.substring 0 (String.length t) t = t.
Proof. induction t as [| c t IH]; simpl; [done | by f_equal]. Qed.

Lemma length_append (s t : string) :
  String.length (s +:+ t) = (String.length s + String.length t)%nat.
Proof. induction s as [| c s IH]; simpl; [done | by f_equal]. Qed.

Lemma substring_append_r (s t : string) :
  String.substring (String.length s) (String.length t) (s +:+ t) = t.
Proof. induction s as [| c s IH]; simpl; [apply substring_all | exact IH]. Qed.

Lemma substring_append_l (s t : string) :
  String.substring 0 (String.length s) (s +:+ t) = s.
Proof.
  induction s as [| c s IH]; simpl; [by destruct t | by f_equal].
Qed.

(** The journal of database [dbName] is named [dbName-journal], and the
    constructor derives [dbName] back from it. *)
Lemma strip_journal_suffix (dbName : string) :
  strip_journal (dbName +:+ journal_suffix) = dbName.
Proof.
  unfold strip_journal. rewrite length_append.
  replace (String.length dbName + String.length journal_suffix
           - String.length journal_suffix)%nat
    with (String.length dbName) by lia.
  rewrite substring_append_r, String.eqb_refl, substring_append_l.
  destruct (Nat.leb_spec (String.length journal_suffix)
              (String.length dbName + String.length journal_suffix)); [done | lia].
Qed.

(** ** The checksum loop *)

(** One more turn than [checksum_fuel] changes nothing: the loop has
    already left through its own test. *)
Lemma checksum_loop_step bytes : forall fuel r x,
  (checksum_fuel x <= fuel)%nat ->
  checksum_loop (S fuel) bytes r x = checksum_loop fuel bytes r x.
Proof.
  induction fuel as [| fuel IH]; intros r x Hx.
  - destruct x as [| z]; cbn; [reflexivity |].
    unfold checksum_fuel in Hx. cbn in Hx.
    destruct (Z.ltb_spec 0 z); [lia | reflexivity].
  - cbn [checksum_loop].
    destruct (JS.gt x (JS.Num 0)) eqn:Hgt; [| reflexivity].
    apply IH.
    destruct x as [| z]; [discriminate |].
    unfold checksum_fuel in *. cbn in *. lia.
Qed.

Lemma checksum_loop_fuel bytes r x fuel :
  (checksum_fuel x <= fuel)%nat ->
  checksum_loop fuel bytes r x = checksum_loop (checksum_fuel x) bytes r x.
Proof.
  induction 1 as [| fuel Hle IH]; [reflexivity |].
  rewrite checksum_loop_step by exact Hle. exact IH.
Qed.

(** The loop adds the bytes at [x], [x - 200], ... for [m] turns. *)
Lemma checksum_loop_sum bytes : forall m fuel r x,
  (m <= fuel)%nat ->
  x <= 200 * Z.of_nat m ->
  (m = 0%nat \/ 200 * (Z.of_nat m - 1) < x) ->
  x < JS.zlen bytes ->
  checksum_loop fuel bytes (JS.Num r) (JS.Num x)
  = JS.Num (r + sum_bytes (map (fun j => nth (Z.to_nat (x - 200 * Z.of_nat j)) bytes 0)
                               (seq 0 m))).
Proof.
  induction m as [| m IH]; intros fuel r x Hfuel Hhi Hlo Hlen.
  - cbn [seq map sum_bytes foldr]. rewrite Z.add_0_r.
    destruct fuel; cbn; [reflexivity |].
    destruct (Z.ltb_spec 0 x); [lia | reflexivity].
  - destruct fuel as [| fuel]; [lia |].
    assert (Hx : 0 < x) by lia.
    cbn [checksum_loop JS.gt].
    destruct (Z.ltb_spec 0 x); [| lia].
    assert (Hidx : JS.index bytes x = Some (nth (Z.to_nat x) bytes 0)).
    { unfold JS.index. destruct (Z.ltb_spec x 0); [lia |].
      destruct (nth_lookup_or_length bytes (Z.to_nat x) 0) as [-> | Hge];
        [reflexivity | unfold JS.zlen in Hlen; lia]. }
    cbn [JS.to_integer]. rewrite Hidx. cbn [from_option JS.add JS.sub].
    rewrite (IH fuel) by lia.
    f_equal. cbn [seq map sum_bytes foldr].
    rewrite <- seq_shift, map_map.
    fold sum_bytes.
    replace (x - 200 * Z.of_nat 0) with x by lia.
    rewrite <- Z.add_assoc. f_equal. f_equal. f_equal.
    apply map_ext. intros j. do 2 f_equal. lia.
Qed.

Lemma checksum_page_checksum f bytes ps n :
  pageSize f = JS.Num ps -> nonce f = JS.Num n -> ps - 200 < JS.zlen bytes ->
  JS.to_uint32 (checksum f bytes) = page_checksum n ps bytes.
Proof.
  intros Hps Hn Hlen. unfold checksum, page_checksum, sample_offsets.
  rewrite Hps, Hn. cbn [JS.sub].
  rewrite <- (checksum_loop_fuel bytes _ _ (Z.to_nat ((ps - 1) / 200) + checksum_fuel (JS.Num (ps - 200)))) by lia.
  rewrite (checksum_loop_sum bytes (Z.to_nat ((ps - 1) / 200))).
  - unfold JS.to_uint32. f_equal. f_equal. f_equal.
    rewrite <- seq_shift, !map_map. apply map_ext. intros j.
    do 2 f_equal. lia.
  - lia.
  - Z.div_mod_to_equations. lia.
  - destruct (Z.to_nat ((ps - 1) / 200)) eqn:E; [by left | right].
    Z.div_mod_to_equations. lia.
  - exact Hlen.
Qed.

(** The sum the loop computes stays far below 2^53, so the additions of
    [#checksum] are exact in double precision. *)
Lemma sum_bytes_bound (g : Z -> Z) (l : list Z) :
  (forall x, 0 <= g x <= 255) ->
  0 <= sum_bytes (map g l) <= 255 * JS.zlen l.
Proof.
  intros Hg. unfold JS.zlen, sum_bytes.
  induction l as [| x l IH]; cbn [map foldr length]; [lia |].
  specialize (Hg x). lia.
Qed.

Lemma page_sum_exact (n ps : Z) (content : list JS.byte) :
  Forall JS.is_byte content -> 0 <= n < 2 ^ 32 -> 0 <= ps < 2 ^ 32 ->
  0 <= n + sum_bytes (map (fun x => nth (Z.to_nat x) content 0)
                          (sample_offsets ps)) < 2 ^ 53.
Proof.
  intros Hc Hn Hps. unfold JS.byte in *.
  assert (Hg : forall x, 0 <= nth (Z.to_nat x) content 0 <= 255).
  { intros x. destruct (nth_lookup_or_length content (Z.to_nat x) 0) as [Hx | Hx].
    - rewrite Forall_lookup in Hc. specialize (Hc _ _ Hx).
      unfold JS.is_byte in Hc. lia.
    - rewrite nth_overflow by lia. lia. }
  match goal with
  | |- context [sum_bytes (map ?g ?l)] =>
      pose proof (sum_bytes_bound g l Hg) as Hsum
  end.
  change (2 ^ 32) with 4294967296 in *. change (2 ^ 53) with 9007199254740992.
  assert (Hlen : JS.zlen (sample_offsets ps) <= 21474836).
  { unfold sample_offsets, JS.zlen. rewrite length_map, length_seq.
    Z.div_mod_to_equations. lia. }
  lia.
Qed.

Lemma rebuild_run db f v p content ps n :
  pageSize f = JS.Num ps -> 0 <= ps -> nonce f = JS.Num n ->
  db !! (db_name (dbFile f), p - 1) = Some content ->
  ps - 200 < JS.zlen content <= ps + 4 ->
  exists entry,
    run (rebuild db (Some p)) f v
    = (Normal tt,
       {| this := set_cachedPageEntry (Some entry) (set_cachedPageIndex p f);
          data := v;
          log := [Get (db_idb (dbFile f)) (db_name (dbFile f)) (JS.Num (p - 1))] |})
    /\ JS.zlen entry = ps + 8
    /\ take 4 entry = JS.be32 p
    /\ drop (Z.to_nat (ps + 4)) entry = JS.be32 (page_checksum n ps content)
    /\ (JS.zlen content = ps ->
        entry = entry_layout p content (page_checksum n ps content)).
Proof.
  intros Hps Hps0 Hn Hdb Hlen.
  pose proof (zlen_nonneg content) as Hc0.
  set (cks := page_checksum n ps content).
  set (pad := replicate (Z.to_nat (ps + 4 - JS.zlen content)) (0 : JS.byte)).
  assert (Hpad : JS.zlen pad = ps + 4 - JS.zlen content)
    by (apply zlen_replicate; lia).
  (* the four steps on the fresh array *)
  assert (H1 : JS.new_Int8Array (JS.Num (ps + 8))
               = inr (replicate (Z.to_nat (ps + 8)) 0)).
  { unfold JS.new_Int8Array. destruct (Z.ltb_spec (ps + 8) 0); [lia | done]. }
  assert (H2 : JS.setUint32 (replicate (Z.to_nat (ps + 8)) 0) (JS.Num 0) (JS.Num p)
               = inr (JS.be32 p ++ replicate (length content) 0 ++ pad)).
  { rewrite setUint32_at by (rewrite ?zlen_replicate; lia).
    unfold JS.to_uint32. rewrite be32_mod.
    change (Z.to_nat 0) with 0%nat. rewrite take_0, app_nil_l.
    do 2 f_equal. unfold pad. rewrite drop_replicate, <- replicate_add.
    f_equal. unfold JS.zlen in *. lia. }
  assert (H3 : JS.set (JS.be32 p ++ replicate (length content) 0 ++ pad) content 4
               = inr (JS.be32 p ++ content ++ pad)).
  { apply set_middle; [done |]. unfold JS.zlen. by rewrite length_replicate. }
  assert (Hck : JS.to_uint32 (checksum (set_cachedPageIndex p f) content) = cks).
  { apply checksum_page_checksum; [done | done | lia]. }
  assert (Hz : JS.zlen (JS.be32 p ++ content ++ pad) = ps + 8)
    by (rewrite !zlen_app, zlen_be32; lia).
  assert (H4 : JS.setUint32 (JS.be32 p ++ content ++ pad) (JS.Num (ps + 8 - 4))
                 (checksum (set_cachedPageIndex p f) content)
               = inr (take (Z.to_nat (ps + 4)) (JS.be32 p ++ content ++ pad)
                      ++ JS.be32 cks)).
  { rewrite setUint32_at by (rewrite ?zlen_app, ?zlen_be32; lia).
    rewrite Hck. do 2 f_equal; [f_equal; lia |].
    rewrite drop_ge; [by rewrite app_nil_r |].
    unfold JS.zlen in Hz. lia. }
  exists (take (Z.to_nat (ps + 4)) (JS.be32 p ++ content ++ pad) ++ JS.be32 cks).
  assert (Hk : length (JS.be32 p ++ content ++ pad) = Z.to_nat (ps + 8))
    by (unfold JS.zlen in Hz; lia).
  split; [| split; [| split; [| split]]].
  - unfold run, rebuild, fetch.
    unfold mbind, M_bind, mret, M_ret, self, update, emit, lift, throw. cbn.
    rewrite Hdb. unfold entrySize. cbn. rewrite Hps. cbn.
    rewrite H1. cbn. rewrite H2. cbn. rewrite H3. cbn. rewrite H4. reflexivity.
  - rewrite zlen_app, zlen_be32. unfold JS.zlen. rewrite length_take, Hk. lia.
  - rewrite take_app_le by (rewrite length_take, Hk; lia).
    rewrite take_take. replace (4 `min` Z.to_nat (ps + 4))%nat with 4%nat by lia.
    reflexivity.
  - rewrite drop_app_length'; [done | rewrite length_take, Hk; lia].
  - intros Hfull. unfold entry_layout.
    rewrite (app_assoc (JS.be32 p) content pad).
    rewrite take_app_length'.
    + by rewrite <- app_assoc.
    + rewrite length_app. change (length (JS.be32 p)) with 4%nat.
      unfold JS.zlen in *. lia.
Qed.

(** ** The branches of [xRead] *)

Lemma same_but_cache_refl f : same_but_cache f f.
Proof. unfold same_but_cache. by destruct f. Qed.

Lemma same_but_cache_fields f g :
  same_but_cache f g ->
  headerSector g = headerSector f /\ sectorSize g = sectorSize f /\
  pageSize g = pageSize f /\ pageIndexes g = pageIndexes f /\
  nonce g = nonce f /\ dbFile g = dbFile f /\ dbFileId g = dbFileId f.
Proof. intros ->. repeat split. Qed.

Lemma same_but_cache_region f g off :
  same_but_cache f g -> region_of g off = region_of f off.
Proof. intros ->. reflexivity. Qed.

Lemma same_but_cache_pageIndex f g off :
  same_but_cache f g -> pageIndex g off = pageIndex f off.
Proof. intros ->. reflexivity. Qed.

(** Whatever [rebuild] does, it touches the cache only; when it returns,
    the cache holds the wanted page number and some entry, and the store
    was asked once. *)
Lemma rebuild_frame db pi f v lg c w :
  rebuild db pi {| this := f; data := v; log := lg |} = (c, w) ->
  same_but_cache f (this w) /\ data w = v /\
  (c = Normal tt ->
   exists p, pi = Some p /\ cachedPageIndex (this w) = p /\
             is_Some (cachedPageEntry (this w))).
Proof.
  unfold rebuild, fetch. destruct pi as [p |]; monad.
  - destruct (db !! (db_name (dbFile f), p - 1)) as [block |]; cbn;
      [| intros ?; simplify_eq/=; split; [apply same_but_cache_refl | done]].
    destruct (JS.new_Int8Array _) as [e | e0]; cbn;
      [intros ?; simplify_eq/=; split; [by unfold same_but_cache; destruct f | done] |].
    destruct (JS.setUint32 e0 _ _) as [e | e1]; cbn;
      [intros ?; simplify_eq/=; split; [by unfold same_but_cache; destruct f | done] |].
    destruct (JS.set e1 block 4) as [e | e2]; cbn;
      [intros ?; simplify_eq/=; split; [by unfold same_but_cache; destruct f | done] |].
    destruct (JS.setUint32 e2 _ _) as [e | e3]; cbn;
      [intros ?; simplify_eq/=; split; [by unfold same_but_cache; destruct f | done] |].
    intros ?; simplify_eq/=. split; [by unfold same_but_cache; destruct f |]. split; [done |].
    intros _. exists p. eauto.
  - intros ?; simplify_eq/=. split; [apply same_but_cache_refl | done].
Qed.

Lemma rebuild_log db pi f v lg c w :
  rebuild db pi {| this := f; data := v; log := lg |} = (c, w) ->
  exists k, log w = lg ++ [Get (db_idb (dbFile f)) (db_name (dbFile f)) k].
Proof.
  unfold rebuild, fetch. destruct pi as [p |]; monad.
  - destruct (db !! (db_name (dbFile f), p - 1)) as [block |]; cbn;
      [| intros ?; simplify_eq/=; eauto].
    destruct (JS.new_Int8Array _) as [e | e0]; cbn;
      [intros ?; simplify_eq/=; eauto |].
    destruct (JS.setUint32 e0 _ _) as [e | e1]; cbn;
      [intros ?; simplify_eq/=; eauto |].
    destruct (JS.set e1 block 4) as [e | e2]; cbn;
      [intros ?; simplify_eq/=; eauto |].
    destruct (JS.setUint32 e2 _ _) as [e | e3]; cbn;
      intros ?; simplify_eq/=; eauto.
  - intros ?; simplify_eq/=. eauto.
Qed.

(** [transfer] spelled out. *)
Lemma transfer_run off f v lg :
  transfer off {| this := f; data := v; log := lg |}
  = match cachedPageEntry f with
    | None => (Throw JS.TypeError, {| this := f; data := v; log := lg |})
    | Some entry =>
        match JS.set v
                (JS.subarray entry
                   (JS.rem (JS.sub (JS.Num off) (sectorSize f)) (entrySize f))
                   (JS.add (JS.rem (JS.sub (JS.Num off) (sectorSize f)) (entrySize f))
                      (JS.Num (JS.zlen v)))) 0 with
        | inl e => (Throw e, {| this := f; data := v; log := lg |})
        | inr v' => (Normal tt, {| this := f; data := v'; log := lg |})
        end
    end.
Proof.
  unfold transfer. monad.
  destruct (cachedPageEntry f) as [entry |]; cbn; [| reflexivity].
  destruct (JS.set v _ 0); reflexivity.
Qed.

Lemma xRead_PastEnd db fid pData off f v :
  region_of f off = PastEnd ->
  run (xRead db fid pData off) f v
  = (Normal VFS.SQLITE_IOERR_SHORT_READ,
     {| this := f;
        data := JS.fill v 0 (JS.Num (PData.size pData));
        log := [ConsoleWarn "short read"] |}).
Proof.
  unfold region_of, computedLength, xRead. monad.
  destruct (JS.ge (JS.Num off) (JS.add _ _)); [reflexivity |].
  destruct (JS.ge (JS.Num off) (sectorSize f)); discriminate.
Qed.

Lemma xRead_Header db fid pData off f v :
  region_of f off = Header ->
  run (xRead db fid pData off) f v
  = match JS.set v (JS.subarray (headerSector f) (JS.Num off)
                      (JS.Num (off + PData.size pData))) 0 with
    | inl e => (Throw e, {| this := f; data := v; log := [] |})
    | inr v' => (Normal VFS.SQLITE_OK, {| this := f; data := v'; log := [] |})
    end.
Proof.
  unfold region_of, computedLength, xRead, read_header. monad.
  destruct (JS.ge (JS.Num off) (JS.add _ _)); [discriminate |].
  destruct (JS.ge (JS.Num off) (sectorSize f)); [discriminate |].
  intros _. cbn [this data log]. destruct (JS.set v _ 0); reflexivity.
Qed.

Lemma xRead_Entries_hit db fid pData off f v :
  region_of f off = Entries ->
  pageIndex f off = Some (cachedPageIndex f) ->
  run (xRead db fid pData off) f v
  = finish (transfer off {| this := f; data := v; log := [] |}).
Proof.
  unfold region_of, computedLength, pageIndex, entryIndex, xRead. intros Hr Hp.
  unfold run, mbind, M_bind, self. cbn [this data log].
  destruct (JS.ge (JS.Num off) (JS.add _ _)); [discriminate |].
  destruct (JS.ge (JS.Num off) (sectorSize f)); [| discriminate].
  rewrite Hp. rewrite decide_True by reflexivity.
  unfold mret, M_ret.
  destruct (transfer off _) as [[[] | e] w]; reflexivity.
Qed.

Lemma xRead_Entries_miss db fid pData off f v :
  region_of f off = Entries ->
  pageIndex f off <> Some (cachedPageIndex f) ->
  run (xRead db fid pData off) f v
  = match rebuild db (pageIndex f off) {| this := f; data := v; log := [] |} with
    | (Normal _, w) => finish (transfer off w)
    | (Throw e, w) => (Throw e, w)
    end.
Proof.
  unfold region_of, computedLength, pageIndex, entryIndex, xRead. intros Hr Hp.
  unfold run, mbind, M_bind, self. cbn [this data log].
  destruct (JS.ge (JS.Num off) (JS.add _ _)); [discriminate |].
  destruct (JS.ge (JS.Num off) (sectorSize f)); [| discriminate].
  rewrite decide_False by (intros E; apply Hp; by rewrite <- E).
  unfold mret, M_ret.
  destruct (rebuild db _ _) as [[[] | e] w]; [| reflexivity].
  destruct (transfer off _) as [[[] | e] w']; reflexivity.
Qed.

(** ** Reading an entry *)

Lemma entry_arith (s es i k : Z) :
  0 <= i < 2 ^ 31 -> 0 <= k < es ->
  JS.to_int32 (JS.div (JS.sub (JS.Num (s + i * es + k)) (JS.Num s)) (JS.Num es)) = i
  /\ JS.rem (JS.sub (JS.Num (s + i * es + k)) (JS.Num s)) (JS.Num es) = JS.Num k.
Proof.
  intros Hi Hk. cbn.
  destruct (Z.eqb_spec es 0); [lia |].
  replace (s + i * es + k - s) with (k + i * es) by lia.
  rewrite Z.quot_div_nonneg, Z.rem_mod_nonneg by nia.
  rewrite Z.div_add, Z.mod_add, Z.div_small, Z.mod_small by lia.
  split; [| reflexivity].
  unfold JS.to_int32. cbn [Z.add].
  rewrite Z.mod_small; change (2 ^ 32) with (2 * 2 ^ 31); lia.
Qed.

Lemma slot_region f s ps n i p k :
  slot_ready f s ps n i p -> 0 <= k < ps + 8 ->
  region_of f (s + i * (ps + 8) + k) = Entries
  /\ pageIndex f (s + i * (ps + 8) + k) = Some p.
Proof.
  intros [Hs Hps Hn Hps0 Hi Hslot Hlen] Hk.
  unfold region_of, computedLength, pageIndex, entryIndex, entrySize.
  rewrite Hs, Hps. cbn [JS.add].
  destruct (entry_arith s (ps + 8) i k Hi Hk) as [-> _].
  split; [| exact Hslot].
  cbn.
  destruct (Z.leb_spec (s + JS.length_ (pageIndexes f) * (ps + 8))
              (s + i * (ps + 8) + k)); [nia |].
  destruct (Z.leb_spec s (s + i * (ps + 8) + k)); [reflexivity | nia].
Qed.

Lemma slot_ready_cache f g s ps n i p :
  same_but_cache f g -> slot_ready f s ps n i p -> slot_ready g s ps n i p.
Proof. intros -> []. by constructor. Qed.

(** One sub-read inside the entry of slot [i]: it delivers the bytes of
    the entry from its position on and leaves the entry in the cache. *)
Lemma xRead_entry db fid pData f b s ps n i p content k :
  slot_ready f s ps n i p ->
  db !! (db_name (dbFile f), p - 1) = Some content ->
  JS.zlen content = ps ->
  cache_serves f p (entry_layout p content (page_checksum n ps content)) ->
  0 <= k -> k < ps + 8 -> k + JS.zlen b <= ps + 8 ->
  exists f' lg,
    run (xRead db fid pData (s + i * (ps + 8) + k)) f b
    = (Normal VFS.SQLITE_OK,
       {| this := f';
          data := take (length b) (drop (Z.to_nat k)
                    (entry_layout p content (page_checksum n ps content)));
          log := lg |})
    /\ same_but_cache f f'
    /\ cachedPageIndex f' = p
    /\ cachedPageEntry f'
       = Some (entry_layout p content (page_checksum n ps content)).
Proof.
  intros Hready Hdb Hc Hcache Hk0 Hk Hkb.
  set (entry := entry_layout p content (page_checksum n ps content)) in *.
  destruct (slot_region f s ps n i p k Hready) as [Hreg Hpi]; [lia |].
  pose proof Hready as [Hs Hps Hn Hps0 Hi Hslot Hlen].
  assert (Hentry : JS.zlen entry = ps + 8).
  { unfold entry, entry_layout. rewrite !zlen_app, !zlen_be32. lia. }
  (* what [transfer] does once the entry is in the cache *)
  assert (Htr : forall g lg,
            same_but_cache f g -> cachedPageEntry g = Some entry ->
            finish (transfer (s + i * (ps + 8) + k) {| this := g; data := b; log := lg |})
            = (Normal VFS.SQLITE_OK,
               {| this := g;
                  data := take (length b) (drop (Z.to_nat k) entry);
                  log := lg |})).
  { intros g lg Hg Hce. rewrite transfer_run, Hce. unfold entrySize.
    destruct (same_but_cache_fields _ _ Hg) as (_ & -> & -> & _).
    rewrite Hs, Hps. cbn [JS.add].
    destruct (entry_arith s (ps + 8) i k Hi) as [_ ->]; [lia |].
    cbn [JS.add]. rewrite subarray_window by (pose proof (zlen_nonneg b); lia).
    assert (Hl : length (take (Z.to_nat (JS.zlen b)) (drop (Z.to_nat k) entry))
                 = length b).
    { rewrite length_take, length_drop. unfold JS.zlen in *. lia. }
    rewrite set_overlay by (unfold JS.zlen at 1; rewrite Hl; reflexivity).
    rewrite Hl, drop_all, app_nil_r. cbn.
    do 3 f_equal. unfold JS.zlen. lia. }
  destruct (decide (cachedPageIndex f = p)) as [Hhit | Hmiss].
  - exists f, []. rewrite xRead_Entries_hit by (rewrite ?Hhit; done).
    rewrite Htr; [| apply same_but_cache_refl | by apply Hcache].
    split; [reflexivity |]. split; [apply same_but_cache_refl |].
    split; [done | by apply Hcache].
  - rewrite xRead_Entries_miss by (rewrite ?Hpi; congruence).
    rewrite Hpi.
    destruct (rebuild_run db f b p content ps n Hps Hps0 Hn Hdb) as (e & Hrun & _ & _ & _ & He);
      [lia |].
    unfold run in Hrun. rewrite Hrun. rewrite (He Hc). fold entry.
    eexists _, _. rewrite Htr; [| by unfold same_but_cache; destruct f | done].
    split; [reflexivity |]. split; [by unfold same_but_cache; destruct f | done].
Qed.

Lemma cache_serves_after f p e :
  cachedPageEntry f = Some e -> cache_serves f p e.
Proof. intros H _. exact H. Qed.

(** Consecutive sub-reads inside the entry of slot [i], starting [k] bytes
    into it, deliver the entry from [k] on, as many bytes as the buffers
    hold. *)
Lemma read_chunks_entry db s ps n i p content : forall bufs f k,
  slot_ready f s ps n i p ->
  db !! (db_name (dbFile f), p - 1) = Some content ->
  JS.zlen content = ps ->
  cache_serves f p (entry_layout p content (page_checksum n ps content)) ->
  Forall (fun b => b <> []) bufs ->
  0 <= k -> k + JS.zlen (concat bufs) <= ps + 8 ->
  exists f',
    read_chunks db f (s + i * (ps + 8) + k) bufs
    = (Some (take (length (concat bufs))
               (drop (Z.to_nat k)
                  (entry_layout p content (page_checksum n ps content)))), f')
    /\ same_but_cache f f'.
Proof.
  induction bufs as [| b bufs IH]; intros f k Hready Hdb Hc Hcache Hne Hk0 Hsum.
  - exists f. cbn. split; [reflexivity | apply same_but_cache_refl].
  - apply Forall_cons in Hne as [Hb Hne'].
    cbn [concat] in Hsum. rewrite zlen_app in Hsum.
    pose proof (zlen_nonneg (concat bufs)).
    assert (0 < JS.zlen b) by (destruct b; [done | unfold JS.zlen; cbn; lia]).
    destruct (xRead_entry db 0 (PData.Make (JS.zlen b) b []) f b s ps n i p content k)
      as (f1 & lg & Hrun & Hsame & Hpi & Hce); try done; try lia.
    cbn [read_chunks]. rewrite Hrun. cbn [this data].
    destruct (same_but_cache_fields _ _ Hsame) as (_ & _ & _ & _ & _ & Hdbf & _).
    destruct (IH f1 (k + JS.zlen b)) as (f2 & Hrest & Hsame2); try done; try lia.
    + by apply (slot_ready_cache f).
    + by rewrite Hdbf.
    + by apply cache_serves_after.
    + replace (s + i * (ps + 8) + k + JS.zlen b)
        with (s + i * (ps + 8) + (k + JS.zlen b)) by lia.
      rewrite Hrest. exists f2. split.
      * cbn. do 2 f_equal. rewrite length_app.
        rewrite <- take_take_drop. do 2 f_equal.
        rewrite drop_drop. f_equal. unfold JS.zlen. lia.
      * unfold same_but_cache in *. rewrite Hsame2, Hsame. by destruct f.
Qed.

(** ** The blocks of [xWrite] *)

Lemma new_Int8Array_zeros (n : Z) :
  0 <= n -> JS.new_Int8Array (JS.Num n) = inr (replicate (Z.to_nat n) 0).
Proof.
  intros H. unfold JS.new_Int8Array. destruct (Z.ltb_spec n 0); [lia | done].
Qed.

(** [store_header] changes the header buffer only, and keeps bytes bytes. *)
Lemma store_header_frame pData off f v lg c w :
  store_header pData off {| this := f; data := v; log := lg |} = (c, w) ->
  data w = v /\ log w = lg /\
  exists h, this w = set_headerSector h f /\
    (Forall JS.is_byte (headerSector f) -> Forall JS.is_byte (PData.value pData) ->
     Forall JS.is_byte h).
Proof.
  unfold store_header. monad.
  destruct (JS.zlen (headerSector f) <? off + PData.size pData).
  - rewrite new_Int8Array_zeros
      by (pose proof (zlen_nonneg (headerSector f));
          pose proof (zlen_nonneg (PData.value pData)); lia).
    red_state.
    set (fresh := replicate _ 0).
    assert (Hfresh : Forall JS.is_byte fresh).
    { apply Forall_replicate. unfold JS.is_byte. lia. }
    destruct (JS.set fresh (headerSector f) 0) as [e | grown] eqn:Hg; red_state.
    { intros ?; simplify_eq/=. do 2 (split; [done |]). by exists fresh. }
    destruct (JS.set grown (PData.value pData) off) as [e | h] eqn:Hh; red_state.
    { intros ?; simplify_eq/=. do 2 (split; [done |]). exists grown.
      split; [done |]. intros.
      by apply (set_bytes fresh (headerSector f) grown 0). }
    intros ?; simplify_eq/=. do 2 (split; [done |]). exists h.
    split; [done |]. intros.
    apply (set_bytes grown (PData.value pData) h off); [| done | done].
    by apply (set_bytes fresh (headerSector f) grown 0).
  - red_state.
    destruct (JS.set (headerSector f) (PData.value pData) off) as [e | h] eqn:Hh;
      red_state.
    { intros ?; simplify_eq/=. do 2 (split; [done |]). exists (headerSector f).
      split; [by destruct f | done]. }
    intros ?; simplify_eq/=. do 2 (split; [done |]). exists h.
    split; [done |]. intros.
    by apply (set_bytes (headerSector f) (PData.value pData) h off).
Qed.

Lemma set_fits (t src : list JS.byte) (off : Z) :
  0 <= off -> off + JS.zlen src <= JS.zlen t ->
  JS.set t src off
  = inr (take (Z.to_nat off) t ++ src ++ drop (Z.to_nat (off + JS.zlen src)) t).
Proof.
  intros H0 H1. unfold JS.set.
  destruct (Z.ltb_spec off 0); [lia |].
  destruct (Z.ltb_spec (JS.zlen t) (JS.zlen src + off)); [lia | reflexivity].
Qed.

Lemma set_window (t src : list JS.byte) (off : Z) :
  0 <= off -> off + JS.zlen src <= JS.zlen t ->
  let r := take (Z.to_nat off) t ++ src ++ drop (Z.to_nat (off + JS.zlen src)) t in
  JS.zlen r = JS.zlen t
  /\ take (length src) (drop (Z.to_nat off) r) = src
  /\ take (Z.to_nat off) r = take (Z.to_nat off) t.
Proof.
  intros H0 H1 r. subst r.
  assert (Hl : length (take (Z.to_nat off) t) = Z.to_nat off).
  { rewrite length_take. unfold JS.zlen in *. lia. }
  split; [| split].
  - unfold JS.zlen in *. rewrite !length_app, length_take, length_drop. lia.
  - rewrite drop_app_length' by (symmetry; exact Hl).
    by rewrite take_app_length.
  - rewrite take_app_length' by (symmetry; exact Hl). reflexivity.
Qed.

(** A header write that starts inside the buffer or right at its end
    succeeds, and the buffer then holds the data at [off]. *)
Lemma store_header_ok pData off f v lg :
  PData.well_formed pData ->
  0 <= off <= JS.zlen (headerSector f) ->
  exists h,
    store_header pData off {| this := f; data := v; log := lg |}
    = (Normal tt, {| this := set_headerSector h f; data := v; log := lg |})
    /\ off + JS.zlen (PData.value pData) <= JS.zlen h
    /\ JS.zlen (headerSector f) <= JS.zlen h
    /\ take (length (PData.value pData)) (drop (Z.to_nat off) h) = PData.value pData
    /\ take (Z.to_nat off) h = take (Z.to_nat off) (headerSector f).
Proof.
  intros Hwf Hoff. unfold PData.well_formed in Hwf.
  pose proof (zlen_nonneg (PData.value pData)) as Hv0.
  unfold store_header. monad. rewrite Hwf.
  destruct (Z.ltb_spec (JS.zlen (headerSector f)) (off + JS.zlen (PData.value pData)))
    as [Hgrow | Hroom].
  - rewrite new_Int8Array_zeros by lia. red_state.
    rewrite set_overlay by (rewrite zlen_replicate; lia).
    red_state.
    rewrite drop_replicate.
    set (grown := headerSector f ++ _).
    assert (Hg : JS.zlen grown = JS.zlen (headerSector f) + JS.zlen (PData.value pData)).
    { unfold grown. rewrite zlen_app. f_equal. unfold JS.zlen.
      rewrite length_replicate. lia. }
    rewrite set_fits by lia. red_state.
    destruct (set_window grown (PData.value pData) off) as (Hlen & Hat & Hpre); [lia | lia |].
    eexists. split; [reflexivity |].
    rewrite Hlen. split; [lia |]. split; [lia |]. split; [exact Hat |].
    rewrite Hpre. unfold grown. rewrite take_app_le; [done |].
    unfold JS.zlen in *. lia.
  - red_state. rewrite set_fits by lia. red_state.
    destruct (set_window (headerSector f) (PData.value pData) off)
      as (Hlen & Hat & Hpre); [lia | lia |].
    eexists. split; [reflexivity |].
    rewrite Hlen. split; [lia |]. split; [lia |]. split; [exact Hat | exact Hpre].
Qed.

(** [collect_layout] leaves the header, the ledger, the cache and the
    binding alone, and sends nothing. *)
Lemma collect_layout_frame f v lg c w :
  collect_layout {| this := f; data := v; log := lg |} = (c, w) ->
  data w = v /\ log w = lg /\
  headerSector (this w) = headerSector f /\
  pageIndexes (this w) = pageIndexes f /\
  cachedPageIndex (this w) = cachedPageIndex f /\
  cachedPageEntry (this w) = cachedPageEntry f /\
  dbFile (this w) = dbFile f /\
  dbFileId (this w) = dbFileId f.
Proof.
  unfold collect_layout. monad.
  destruct (JS.getUint32 (headerSector f) 12) as [e | n]; red_state;
    [intros ?; by simplify_eq/= |].
  destruct (JS.getUint32 (headerSector f) 20) as [e | s]; red_state;
    [intros ?; by simplify_eq/= |].
  destruct (JS.getUint32 (headerSector f) 24) as [e | p]; red_state;
    intros ?; by simplify_eq/=.
Qed.

(** [collect_layout] on a header that holds the three fields. *)
Lemma collect_layout_run f v lg n s p :
  JS.getUint32 (headerSector f) 12 = inr n ->
  JS.getUint32 (headerSector f) 20 = inr s ->
  JS.getUint32 (headerSector f) 24 = inr p ->
  collect_layout {| this := f; data := v; log := lg |}
  = (Normal tt,
     {| this :=
          set_pageSize
            (JS.or_else (JS.Num p) (JS.or_else (JS.Num s) (sectorSize f)))
            (set_sectorSize (JS.or_else (JS.Num s) (sectorSize f))
               (set_nonce (JS.Num n) f));
        data := v; log := lg |}).
Proof.
  intros Hn Hs Hp. unfold collect_layout. monad.
  rewrite Hn. red_state. rewrite Hs. red_state. rewrite Hp. reflexivity.
Qed.

(** ** Entry reconstruction *)

Example sample_offsets_4096 :
  sample_offsets 4096
  = [3896; 3696; 3496; 3296; 3096; 2896; 2696; 2496; 2296; 2096;
     1896; 1696; 1496; 1296; 1096; 896; 696; 496; 296; 96].
Proof. reflexivity. Qed.

Example sample_offsets_small :
  sample_offsets 200 = [] /\ sample_offsets 201 = [1] /\ sample_offsets 400 = [200].
Proof. repeat split. Qed.

(** C1 (amended).  Let slot [i] of the ledger hold page number [p], with
    the sector size, the page size and the nonce set, and let the store
    hold [pageSize] bytes of content under (database name, p - 1).
    Provided the reconstruction cache does not already hold page number
    [p] with other bytes (it holds another page number, or the entry built
    from this content), reading the entry region of the slot in any
    sequence of non-empty consecutive sub-reads that cover its
    [pageSize + 8] bytes returns [SQLITE_OK] each time and delivers, in
    order, the big-endian page number, the store's content and the
    big-endian checksum; and a single sub-read that starts [k] bytes into
    the entry delivers the entry's bytes from [k] on. *)
Theorem entry_region_read db f s ps n i p content :
  sectorSize f = JS.Num s -> pageSize f = JS.Num ps -> nonce f = JS.Num n ->
  0 <= ps -> 0 <= i < 2 ^ 31 ->
  JS.array_get (pageIndexes f) i = Some p ->
  i < JS.length_ (pageIndexes f) ->
  db !! (db_name (dbFile f), p - 1) = Some content ->
  JS.zlen content = ps ->
  (cachedPageIndex f = p ->
   cachedPageEntry f = Some (entry_layout p content (page_checksum n ps content))) ->
  (forall bufs,
     Forall (fun b => b <> []) bufs ->
     JS.zlen (concat bufs) = ps + 8 ->
     (read_chunks db f (s + i * (ps + 8)) bufs).1
     = Some (entry_layout p content (page_checksum n ps content)))
  /\ (forall fid pData b k,
        0 <= k < ps + 8 -> k + JS.zlen b <= ps + 8 ->
        exists w,
          run (xRead db fid pData (s + i * (ps + 8) + k)) f b
          = (Normal VFS.SQLITE_OK, w)
          /\ data w = take (length b) (drop (Z.to_nat k)
                        (entry_layout p content (page_checksum n ps content)))).
Proof.
  intros Hs Hps Hn Hps0 Hi Hslot Hlen Hdb Hc Hcache.
  assert (Hready : slot_ready f s ps n i p) by (by constructor).
  assert (Hentry : length (entry_layout p content (page_checksum n ps content))
                   = Z.to_nat (ps + 8)).
  { unfold entry_layout. rewrite !length_app. unfold JS.zlen in Hc.
    change (length (JS.be32 _)) with 4%nat. lia. }
  split.
  - intros bufs Hne Hsum.
    destruct (read_chunks_entry db s ps n i p content bufs f 0)
      as (f' & Hrun & _); try done; try lia.
    rewrite Z.add_0_r in Hrun. rewrite Hrun. cbn [fst].
    change (Z.to_nat 0) with 0%nat. rewrite drop_0, take_ge; [done |].
    unfold JS.zlen in Hsum. lia.
  - intros fid pData b k Hk Hkb.
    destruct (xRead_entry db fid pData f b s ps n i p content k)
      as (f' & lg & Hrun & _); try done; try lia.
    eexists. split; [exact Hrun | reflexivity].
Qed.

Lemma entry_region_read_witness :
  (read_chunks Sample.store512 Sample.wide 512
     [replicate 4 0; replicate 512 0; replicate 4 0]).1
  = Some (entry_layout 3 Sample.page512 (page_checksum 4096 512 Sample.page512)).
Proof.
  refine (proj1 (entry_region_read Sample.store512 Sample.wide 512 512 4096 0 3
                   Sample.page512 _ _ _ _ _ _ _ _ _ _) _ _ _).
  - vm_compute. reflexivity.
  - vm_compute. reflexivity.
  - vm_compute. reflexivity.
  - lia.
  - lia.
  - vm_compute. reflexivity.
  - vm_compute. reflexivity.
  - vm_compute. reflexivity.
  - vm_compute. reflexivity.
  - vm_compute. discriminate.
  - repeat constructor; discriminate.
  - vm_compute. reflexivity.
Defined.

(** C1 as stated fails when the cache already holds the page number.  The
    sample journal has replayed page 7 while the store held [pageA]; the
    store now holds [pageB] under the same key.  Slot 0 is assigned, the
    sizes are set and the page is present, yet the entry region reads
    back [pageA] and its checksum. *)
Lemma entry_region_read_stale_cache :
  sectorSize Sample.replayed = JS.Num 32
  /\ pageSize Sample.replayed = JS.Num 8
  /\ nonce Sample.replayed = JS.Num 4096
  /\ JS.array_get (pageIndexes Sample.replayed) 0 = Some 7
  /\ Sample.storeB !! (db_name (dbFile Sample.replayed), 7 - 1) = Some Sample.pageB
  /\ (read_chunks Sample.storeB Sample.replayed 32
        [replicate 4 0; replicate 8 0; replicate 4 0]).1
     = Some (entry_layout 7 Sample.pageA (page_checksum 4096 8 Sample.pageA))
  /\ (read_chunks Sample.storeB Sample.replayed 32
        [replicate 4 0; replicate 8 0; replicate 4 0]).1
     <> Some (entry_layout 7 Sample.pageB (page_checksum 4096 8 Sample.pageB)).
Proof.
  vm_compute. repeat split; discriminate.
Qed.

(** C2.  When an entry is rebuilt for a page whose content reaches every
    sampled offset and fits the entry, the last four bytes of the entry
    are the big-endian encoding of [nonce] plus the content bytes at
    [pageSize - 200], [pageSize - 400], ... (while positive), modulo
    2^32; this is also what [#checksum] returns once stored as an
    unsigned 32-bit value. *)
Theorem checksum_field db f v p content ps n :
  pageSize f = JS.Num ps -> 0 <= ps -> nonce f = JS.Num n ->
  db !! (db_name (dbFile f), p - 1) = Some content ->
  ps - 200 < JS.zlen content <= ps + 4 ->
  JS.to_uint32 (checksum f content)
  = (n + sum_bytes (map (fun x => nth (Z.to_nat x) content 0)
                        (sample_offsets ps))) mod 2 ^ 32
  /\ exists w entry,
       run (rebuild db (Some p)) f v = (Normal tt, w)
       /\ cachedPageEntry (this w) = Some entry
       /\ JS.zlen entry = ps + 8
       /\ drop (Z.to_nat (ps + 4)) entry
          = JS.be32 ((n + sum_bytes (map (fun x => nth (Z.to_nat x) content 0)
                                        (sample_offsets ps))) mod 2 ^ 32).
Proof.
  intros Hps Hps0 Hn Hdb Hlen. split.
  - rewrite (checksum_page_checksum f content ps n) by (done || lia).
    reflexivity.
  - destruct (rebuild_run db f v p content ps n Hps Hps0 Hn Hdb Hlen)
      as (entry & Hrun & Hz & _ & Hck & _).
    eexists _, entry. split; [exact Hrun |]. split; [reflexivity |].
    split; [exact Hz | exact Hck].
Qed.

Lemma checksum_field_witness :
  JS.to_uint32 (checksum Sample.wide Sample.page512)
  = (4096 + sum_bytes (map (fun x => nth (Z.to_nat x) Sample.page512 0)
                           (sample_offsets 512))) mod 2 ^ 32
  /\ exists w entry,
       run (rebuild Sample.store512 (Some 3)) Sample.wide [] = (Normal tt, w)
       /\ cachedPageEntry (this w) = Some entry
       /\ JS.zlen entry = 512 + 8
       /\ drop (Z.to_nat (512 + 4)) entry
          = JS.be32 ((4096 + sum_bytes (map (fun x => nth (Z.to_nat x) Sample.page512 0)
                                           (sample_offsets 512))) mod 2 ^ 32).
Proof.
  apply (checksum_field Sample.store512 Sample.wide [] 3 Sample.page512 512 4096).
  - vm_compute. reflexivity.
  - lia.
  - vm_compute. reflexivity.
  - vm_compute. reflexivity.
  - vm_compute. split; [reflexivity | discriminate].
Defined.

Example checksum_sample :
  JS.to_uint32 (checksum Sample.wide Sample.page512) = 4096 + 56 + 112.
Proof. vm_compute. reflexivity. Qed.

(** ** Writes *)

(** C6.  With the sector size and the page size set, a write of at least
    four bytes at or beyond the sector size returns [SQLITE_OK] and sends
    nothing.  When (offset - sectorSize) mod entrySize is 0, the ledger of
    the object afterwards holds, at slot (offset - sectorSize) / entrySize,
    the big-endian number of the first four written bytes; every other
    slot reads as before, the length of the ledger is extended to reach
    the slot, and every other field of the object is as it was.
    Otherwise the object is unchanged.  In both cases the object
    afterwards depends on the first four written bytes only: the page
    content and the checksum that follow them are kept nowhere. *)
Theorem entry_write fid pData off f v s ps b0 b1 b2 b3 tl :
  sectorSize f = JS.Num s -> 0 < s ->
  pageSize f = JS.Num ps -> 0 <= ps ->
  s <= off ->
  PData.value pData = b0 :: b1 :: b2 :: b3 :: tl ->
  ((off - s) mod (ps + 8) = 0 ->
   run (xWrite fid pData off) f v
   = (Normal VFS.SQLITE_OK,
      {| this := set_pageIndexes
                   (JS.array_set (pageIndexes f) ((off - s) / (ps + 8))
                      (JS.of_be32 b0 b1 b2 b3)) f;
         data := v; log := [] |})
   /\ JS.array_get (pageIndexes (this (run (xWrite fid pData off) f v).2))
        ((off - s) / (ps + 8))
      = Some (JS.of_be32 b0 b1 b2 b3)
   /\ (forall j, j <> (off - s) / (ps + 8) ->
         JS.array_get (pageIndexes (this (run (xWrite fid pData off) f v).2)) j
         = JS.array_get (pageIndexes f) j)
   /\ ((off - s) / (ps + 8) < 2 ^ 32 - 1 ->
       JS.length_ (pageIndexes (this (run (xWrite fid pData off) f v).2))
       = Z.max (JS.length_ (pageIndexes f)) ((off - s) / (ps + 8) + 1))
   /\ headerSector (this (run (xWrite fid pData off) f v).2) = headerSector f
   /\ sectorSize (this (run (xWrite fid pData off) f v).2) = sectorSize f
   /\ pageSize (this (run (xWrite fid pData off) f v).2) = pageSize f
   /\ nonce (this (run (xWrite fid pData off) f v).2) = nonce f
   /\ cachedPageIndex (this (run (xWrite fid pData off) f v).2)
      = cachedPageIndex f
   /\ cachedPageEntry (this (run (xWrite fid pData off) f v).2)
      = cachedPageEntry f
   /\ dbFileId (this (run (xWrite fid pData off) f v).2) = dbFileId f
   /\ dbFile (this (run (xWrite fid pData off) f v).2) = dbFile f
   /\ idb (this (run (xWrite fid pData off) f v).2) = idb f
   /\ flags (this (run (xWrite fid pData off) f v).2) = flags f
   /\ metadata (this (run (xWrite fid pData off) f v).2) = metadata f)
  /\ ((off - s) mod (ps + 8) <> 0 ->
      run (xWrite fid pData off) f v
      = (Normal VFS.SQLITE_OK, {| this := f; data := v; log := [] |}))
  /\ (forall fid' pData' tl',
        PData.value pData' = b0 :: b1 :: b2 :: b3 :: tl' ->
        run (xWrite fid' pData' off) f v = run (xWrite fid pData off) f v).
Proof.
  intros Hs Hs0 Hps Hps0 Hoff Hv.
  assert (Hge : JS.ge (JS.Num off) (sectorSize f) = true).
  { rewrite Hs. cbn. by apply Z.leb_le. }
  assert (Hrem : JS.rem (JS.sub (JS.Num off) (sectorSize f)) (entrySize f)
                 = JS.Num ((off - s) mod (ps + 8))).
  { unfold entrySize. rewrite Hs, Hps. cbn.
    destruct (Z.eqb_spec (ps + 8) 0); [lia |].
    by rewrite Z.rem_mod_nonneg by lia. }
  assert (Hdiv : JS.to_integer (JS.div (JS.sub (JS.Num off) (sectorSize f)) (entrySize f))
                 = (off - s) / (ps + 8)).
  { unfold entrySize. rewrite Hs, Hps. cbn.
    destruct (Z.eqb_spec (ps + 8) 0); [lia |].
    cbn. by rewrite Z.quot_div_nonneg by lia. }
  assert (Hoff0 : (off =? 0) = false) by (apply Z.eqb_neq; lia).
  assert (Hidx : 0 <= (off - s) / (ps + 8)) by (apply Z.div_pos; lia).
  assert (Hslot : forall fd pd t,
             PData.value pd = b0 :: b1 :: b2 :: b3 :: t ->
             (off - s) mod (ps + 8) = 0 ->
             run (xWrite fd pd off) f v
             = (Normal VFS.SQLITE_OK,
                {| this := set_pageIndexes
                             (JS.array_set (pageIndexes f) ((off - s) / (ps + 8))
                                (JS.of_be32 b0 b1 b2 b3)) f;
                   data := v; log := [] |})).
  { intros fd pd t Hpd Hmod. unfold xWrite, store_pageIndex. monad.
    rewrite Hge, Hrem, Hmod. cbn [negb JS.is_zero]. red_state.
    rewrite Hpd. change ((b0 :: b1 :: b2 :: b3 :: t) ++ PData.rest pd)
      with ([] ++ b0 :: b1 :: b2 :: b3 :: (t ++ PData.rest pd)).
    rewrite getUint32_at by reflexivity. red_state.
    rewrite Hdiv, Hoff0. red_state. reflexivity. }
  assert (Hskip : forall fd pd,
             (off - s) mod (ps + 8) <> 0 ->
             run (xWrite fd pd off) f v
             = (Normal VFS.SQLITE_OK, {| this := f; data := v; log := [] |})).
  { intros fd pd Hmod. unfold xWrite. monad.
    rewrite Hge, Hrem. cbn [negb].
    assert (Hz : JS.is_zero (JS.Num ((off - s) mod (ps + 8))) = false).
    { cbn. by destruct ((off - s) mod (ps + 8)). }
    rewrite Hz, Hoff0. red_state. reflexivity. }
  split; [| split].
  - intros Hmod. rewrite (Hslot fid pData tl Hv Hmod).
    split; [reflexivity |]. cbn [snd this].
    destruct f as [h sec pg pi ci ce nc di df ib fl md].
    unfold set_pageIndexes.
    cbn [pageIndexes headerSector sectorSize pageSize nonce cachedPageIndex
         cachedPageEntry dbFileId dbFile idb flags metadata].
    split; [| split; [| split]]; [| | | by repeat split].
    + unfold JS.array_get, JS.array_set. cbn [JS.props].
      apply lookup_insert_eq.
    + intros j Hj. unfold JS.array_get, JS.array_set. cbn [JS.props].
      by rewrite lookup_insert_ne.
    + intros Hmax. unfold JS.array_set. cbn [JS.length_].
      destruct (Z.leb_spec 0 ((off - s) / (ps + 8))); [| lia].
      destruct (Z.ltb_spec ((off - s) / (ps + 8)) (2 ^ 32 - 1)); [| lia].
      destruct (Z.leb_spec (JS.length_ pi) ((off - s) / (ps + 8)));
        cbn [andb]; lia.
  - intros Hmod. by apply Hskip.
  - intros fid' pData' tl' Hv'.
    destruct (decide ((off - s) mod (ps + 8) = 0)) as [Hmod | Hmod].
    + by rewrite (Hslot fid' pData' tl' Hv' Hmod), (Hslot fid pData tl Hv Hmod).
    + by rewrite !Hskip.
Qed.

Lemma entry_write_witness :
  JS.array_get
    (pageIndexes
       (this (run (xWrite 0 (Sample.pdata (JS.be32 7 ++ Sample.pageA)) 48)
                Sample.started []).2))
    ((48 - 32) / (8 + 8))
  = Some (JS.of_be32 0 0 0 7)
  /\ (forall j, j <> (48 - 32) / (8 + 8) ->
        JS.array_get
          (pageIndexes
             (this (run (xWrite 0 (Sample.pdata (JS.be32 7 ++ Sample.pageA)) 48)
                      Sample.started []).2)) j
        = JS.array_get (pageIndexes Sample.started) j)
  /\ ((48 - 32) / (8 + 8) < 2 ^ 32 - 1 ->
      JS.length_
        (pageIndexes
           (this (run (xWrite 0 (Sample.pdata (JS.be32 7 ++ Sample.pageA)) 48)
                    Sample.started []).2))
      = Z.max (JS.length_ (pageIndexes Sample.started)) ((48 - 32) / (8 + 8) + 1)).
Proof.
  pose proof (entry_write 0 (Sample.pdata (JS.be32 7 ++ Sample.pageA)) 48
                Sample.started [] 32 8 0 0 0 7 Sample.pageA) as H.
  destruct H as [Haligned _].
  - vm_compute. reflexivity.
  - lia.
  - vm_compute. reflexivity.
  - lia.
  - lia.
  - vm_compute. reflexivity.
  - destruct Haligned as (_ & Hget & Hother & Hlen & _).
    + vm_compute. reflexivity.
    + exact (conj Hget (conj Hother Hlen)).
Defined.

(** Offset 0 is in the header region of every object whose sector size is
    unset or positive. *)
Lemma size_field_header_branch f :
  size_field (sectorSize f) -> JS.ge (JS.Num 0) (sectorSize f) = false.
Proof.
  unfold size_field. destruct (sectorSize f) as [| z]; [done |].
  intros Hz. cbn. apply Z.leb_gt. lia.
Qed.

(** C7.  On an object whose sector size is unset or a non-zero 32-bit
    value, a write at offset 0 whose first byte is zero returns
    [SQLITE_OK], sends exactly one commit notification, to the bound
    database file, and leaves the ledger as it was; a write at offset 0
    whose first byte is not zero sends nothing at all. *)
Theorem header_clear_commits fid pData f v b tl :
  size_field (sectorSize f) ->
  PData.well_formed pData ->
  PData.value pData = b :: tl ->
  (b = 0 ->
   (run (xWrite fid pData 0) f v).1 = Normal VFS.SQLITE_OK
   /\ log (run (xWrite fid pData 0) f v).2 = [Commit (dbFile f)]
   /\ pageIndexes (this (run (xWrite fid pData 0) f v).2) = pageIndexes f)
  /\ (b <> 0 ->
      log (run (xWrite fid pData 0) f v).2 = []
      /\ pageIndexes (this (run (xWrite fid pData 0) f v).2) = pageIndexes f).
Proof.
  intros Hsec Hwf Hv.
  pose proof (size_field_header_branch f Hsec) as Hge.
  destruct (store_header_ok pData 0 f v [] Hwf) as (h & Hst & _);
    [pose proof (zlen_nonneg (headerSector f)); lia |].
  assert (Hidx : JS.index (PData.value pData) 0 = Some b) by (by rewrite Hv).
  split; intros Hb.
  - unfold xWrite, run, mbind, M_bind, self. red_state.
    rewrite Hge. cbn [negb]. rewrite Hst. red_state.
    rewrite Hidx. subst b. cbn [JS.truthy Z.eqb negb].
    monad. done.
  - unfold xWrite, run, mbind, M_bind, self. red_state.
    rewrite Hge. cbn [negb]. rewrite Hst. red_state.
    rewrite Hidx. cbn [JS.truthy].
    destruct (Z.eqb_spec b 0); [done |]. cbn [negb Z.eqb].
    destruct (collect_layout _) as [c w] eqn:Hcl.
    apply collect_layout_frame in Hcl as (_ & Hlog & _ & Hpi & _).
    destruct c; cbn; rewrite ?Hlog, ?Hpi; done.
Qed.

Lemma header_clear_commits_witness :
  (run (xWrite 0 (Sample.pdata [0]) 0) Sample.journaled []).1 = Normal VFS.SQLITE_OK
  /\ log (run (xWrite 0 (Sample.pdata [0]) 0) Sample.journaled []).2
     = [Commit (dbFile Sample.journaled)]
  /\ pageIndexes (this (run (xWrite 0 (Sample.pdata [0]) 0) Sample.journaled []).2)
     = pageIndexes Sample.journaled.
Proof.
  refine (proj1 (header_clear_commits 0 (Sample.pdata [0]) Sample.journaled [] 0 []
                   _ _ _) _).
  - vm_compute. split; reflexivity.
  - reflexivity.
  - reflexivity.
  - reflexivity.
Defined.

(** ** Journaling a page and reading it back *)

(** The write that journals page number [p] in slot [i]. *)
Lemma xWrite_slot fid pData f v s ps i b0 b1 b2 b3 tl :
  sectorSize f = JS.Num s -> 0 < s ->
  pageSize f = JS.Num ps -> 0 <= ps -> 0 <= i ->
  PData.value pData = b0 :: b1 :: b2 :: b3 :: tl ->
  run (xWrite fid pData (s + i * (ps + 8))) f v
  = (Normal VFS.SQLITE_OK,
     {| this := set_pageIndexes
                  (JS.array_set (pageIndexes f) i (JS.of_be32 b0 b1 b2 b3)) f;
        data := v; log := [] |}).
Proof.
  intros Hs Hs0 Hps Hps0 Hi Hv.
  assert (Hge : JS.ge (JS.Num (s + i * (ps + 8))) (sectorSize f) = true).
  { rewrite Hs. cbn. apply Z.leb_le. nia. }
  assert (Hrem : JS.rem (JS.sub (JS.Num (s + i * (ps + 8))) (sectorSize f)) (entrySize f)
                 = JS.Num 0).
  { unfold entrySize. rewrite Hs, Hps. cbn.
    destruct (Z.eqb_spec (ps + 8) 0); [lia |].
    replace (s + i * (ps + 8) - s) with (i * (ps + 8)) by lia.
    rewrite Z.rem_mod_nonneg by nia. by rewrite Z.mod_mul by lia. }
  assert (Hdiv : JS.to_integer
                   (JS.div (JS.sub (JS.Num (s + i * (ps + 8))) (sectorSize f))
                      (entrySize f)) = i).
  { unfold entrySize. rewrite Hs, Hps. cbn.
    destruct (Z.eqb_spec (ps + 8) 0); [lia |]. cbn.
    replace (s + i * (ps + 8) - s) with (i * (ps + 8)) by lia.
    rewrite Z.quot_div_nonneg by nia. by rewrite Z.div_mul by lia. }
  assert (Hoff0 : (s + i * (ps + 8) =? 0) = false) by (apply Z.eqb_neq; nia).
  unfold xWrite, store_pageIndex. monad.
  rewrite Hge, Hrem. cbn [negb JS.is_zero]. red_state.
  rewrite Hv. change ((b0 :: b1 :: b2 :: b3 :: tl) ++ PData.rest pData)
    with ([] ++ b0 :: b1 :: b2 :: b3 :: (tl ++ PData.rest pData)).
  rewrite getUint32_at by reflexivity. red_state.
  rewrite Hdiv, Hoff0. red_state. reflexivity.
Qed.

(** X13.  A page number journaled in slot [i] and then read back.  The
    sector size is positive, the page size and the nonce are set, and the
    slot index is at least 0 and below 2^31 (the read computes the slot
    with [| 0]).  At least four bytes are written at the start of slot
    [i]; their first four bytes are page number [p] in big-endian order;
    the cache did not name page [p] before the write; and the store holds
    for page [p] a block of exactly pageSize bytes.  Then reading the
    entry region of the slot from its start, in consecutive non-empty
    chunks of entrySize bytes in total, one [xRead] per chunk, returns
    [SQLITE_OK] every time and delivers the page number, the block and
    its checksum, whatever the ledger held before. *)
Lemma journaled_page_read_back db fid pData f v s ps n i b0 b1 b2 b3 tl content bufs :
  sectorSize f = JS.Num s -> 0 < s ->
  pageSize f = JS.Num ps -> 0 <= ps ->
  nonce f = JS.Num n ->
  0 <= i < 2 ^ 31 ->
  PData.value pData = b0 :: b1 :: b2 :: b3 :: tl ->
  db !! (db_name (dbFile f), JS.of_be32 b0 b1 b2 b3 - 1) = Some content ->
  JS.zlen content = ps ->
  cachedPageIndex f <> JS.of_be32 b0 b1 b2 b3 ->
  Forall (fun b => b <> []) bufs ->
  JS.zlen (concat bufs) = ps + 8 ->
  (read_chunks db
     (this (run (xWrite fid pData (s + i * (ps + 8))) f v).2)
     (s + i * (ps + 8)) bufs).1
  = Some (entry_layout (JS.of_be32 b0 b1 b2 b3) content
            (page_checksum n ps content)).
Proof.
  intros Hs Hs0 Hps Hps0 Hn Hi Hv Hdb Hc Hcache Hne Hsum.
  rewrite (xWrite_slot fid pData f v s ps i b0 b1 b2 b3 tl) by (done || lia).
  cbn [snd this].
  set (p := JS.of_be32 b0 b1 b2 b3) in *.
  set (f1 := set_pageIndexes _ f).
  assert (Hready : slot_ready f1 s ps n i p).
  { unfold f1. constructor; try done.
    - unfold JS.array_get, JS.array_set. cbn. apply lookup_insert_eq.
    - unfold JS.array_set. cbn [pageIndexes set_pageIndexes JS.length_].
      assert (H0 : (0 <=? i) = true) by (apply Z.leb_le; lia).
      assert (H1 : (i <? 2 ^ 32 - 1) = true).
      { apply Z.ltb_lt. change (2 ^ 32) with (2 * 2 ^ 31). lia. }
      rewrite H0, H1. cbn [andb].
      destruct (Z.leb_spec (JS.length_ (pageIndexes f)) i); lia. }
  destruct (read_chunks_entry db s ps n i p content bufs f1 0)
    as (f' & Hrun & _); try done; try lia.
  { intros Hp. by destruct Hcache. }
  rewrite Z.add_0_r in Hrun. rewrite Hrun. cbn [fst].
  change (Z.to_nat 0) with 0%nat. rewrite drop_0, take_ge; [done |].
  unfold entry_layout. rewrite !length_app.
  change (length (JS.be32 _)) with 4%nat. unfold JS.zlen in *. lia.
Qed.

(** ** Reads past the end *)

(** With both sizes set, the short-read test is the comparison with the
    apparent file length. *)
Lemma region_PastEnd f s ps off :
  sectorSize f = JS.Num s -> pageSize f = JS.Num ps ->
  (region_of f off = PastEnd
   <-> s + JS.length_ (pageIndexes f) * (ps + 8) <= off).
Proof.
  intros Hs Hps. unfold region_of, computedLength, entrySize.
  rewrite Hs, Hps. cbn.
  destruct (Z.leb_spec (s + JS.length_ (pageIndexes f) * (ps + 8)) off);
    [done |].
  split; [| lia]. by destruct (s <=? off).
Qed.

Lemma xRead_short_read db fid pData off f v s ps :
  sectorSize f = JS.Num s -> pageSize f = JS.Num ps ->
  ((run (xRead db fid pData off) f v).1 = Normal VFS.SQLITE_IOERR_SHORT_READ
   <-> s + JS.length_ (pageIndexes f) * (ps + 8) <= off).
Proof.
  intros Hs Hps. rewrite <- (region_PastEnd f s ps off Hs Hps).
  destruct (region_of f off) eqn:Hr.
  - rewrite xRead_PastEnd by done. done.
  - split; [| done].
    destruct (decide (pageIndex f off = Some (cachedPageIndex f))) as [Hp | Hp].
    + rewrite xRead_Entries_hit by done.
      destruct (transfer off _) as [[[] | e] w]; discriminate.
    + rewrite xRead_Entries_miss by done.
      destruct (rebuild db _ _) as [[[] | e] w]; [| discriminate].
      destruct (transfer off _) as [[[] | e] w']; discriminate.
  - split; [| done]. rewrite xRead_Header by done.
    destruct (JS.set v _ 0); discriminate.
Qed.

(** [fill(0, pData.size)] starts at the end of a buffer of [pData.size]
    bytes: it writes nothing. *)
Lemma fill_from_end (v : list JS.byte) (x : JS.byte) :
  JS.fill v x (JS.Num (JS.zlen v)) = v.
Proof.
  unfold JS.fill, JS.clamp_index. cbn [JS.to_integer].
  pose proof (zlen_nonneg v).
  destruct (Z.ltb_spec (JS.zlen v) 0); [lia |].
  rewrite Z.min_id, Z.sub_diag. cbn [Z.to_nat replicate].
  rewrite app_nil_r. apply take_ge. unfold JS.zlen. lia.
Qed.

(** A short read leaves the destination exactly as it found it. *)
Lemma short_read_keeps_buffer db fid pData off f :
  PData.well_formed pData ->
  region_of f off = PastEnd ->
  run (xRead db fid pData off) f (PData.value pData)
  = (Normal VFS.SQLITE_IOERR_SHORT_READ,
     {| this := f; data := PData.value pData;
        log := [ConsoleWarn "short read"] |}).
Proof.
  intros Hwf Hr. rewrite xRead_PastEnd by done.
  unfold PData.well_formed in Hwf. rewrite Hwf, fill_from_end. reflexivity.
Qed.

(** C3, at a failing input.  The sample journal has one entry, so its
    apparent length is 32 + 1 * 16 = 48.  A read of four bytes at offset 48
    signals the short read, and a read at offset 47 does not, but the
    destination of the short read still holds the bytes 1, 2, 3, 4 it held
    before the call: it is not zero-filled. *)
Theorem short_read_not_zero_filled :
  computedLength Sample.journaled = JS.Num 48
  /\ run (xRead Sample.storeA 0 (Sample.pdata [1; 2; 3; 4]) 48)
         Sample.journaled [1; 2; 3; 4]
     = (Normal VFS.SQLITE_IOERR_SHORT_READ,
        {| this := Sample.journaled; data := [1; 2; 3; 4];
           log := [ConsoleWarn "short read"] |})
  /\ (run (xRead Sample.storeA 0 (Sample.pdata [1; 2; 3; 4]) 47)
          Sample.journaled [1; 2; 3; 4]).1
     = Normal VFS.SQLITE_OK.
Proof. vm_compute. repeat split. Qed.

(** ** The header *)

(** What a write at offset 0 with a non-zero first byte collects, when the
    buffer holds the three fields: the nonce, the sector size or its old
    value, and the page size or the sector size just stored. *)
Lemma header_fields_collected fid pData f v b tl h n s p :
  size_field (sectorSize f) ->
  PData.well_formed pData ->
  PData.value pData = b :: tl -> b <> 0 ->
  store_header pData 0 {| this := f; data := v; log := [] |}
  = (Normal tt, {| this := set_headerSector h f; data := v; log := [] |}) ->
  JS.getUint32 h 12 = inr n ->
  JS.getUint32 h 20 = inr s ->
  JS.getUint32 h 24 = inr p ->
  run (xWrite fid pData 0) f v
  = (Normal VFS.SQLITE_OK,
     {| this :=
          set_pageSize
            (JS.or_else (JS.Num p) (JS.or_else (JS.Num s) (sectorSize f)))
            (set_sectorSize (JS.or_else (JS.Num s) (sectorSize f))
               (set_nonce (JS.Num n) (set_headerSector h f)));
        data := v; log := [] |}).
Proof.
  intros Hsec Hwf Hv Hb Hst Hn Hs Hp.
  pose proof (size_field_header_branch f Hsec) as Hge.
  assert (Hidx : JS.index (PData.value pData) 0 = Some b) by (by rewrite Hv).
  unfold xWrite, run, mbind, M_bind, self. red_state.
  rewrite Hge. cbn [negb]. rewrite Hst. red_state.
  rewrite Hidx. cbn [JS.truthy].
  destruct (Z.eqb_spec b 0); [done |]. cbn [negb Z.eqb].
  rewrite (collect_layout_run _ v [] n s p) by done.
  reflexivity.
Qed.

(** C4, at a failing input.  The sample journal has sector size 32 and
    page size 8.  A header whose sector size and page size fields are both
    zero is written at offset 0: the sector size stays 32, but the page
    size does not stay 8, it becomes the sector size, 32. *)
Theorem zero_page_size_field_takes_sector_size :
  sectorSize Sample.started = JS.Num 32
  /\ pageSize Sample.started = JS.Num 8
  /\ (run (xWrite 0 (Sample.pdata (Sample.header 4096 0 0)) 0) Sample.started []).1
     = Normal VFS.SQLITE_OK
  /\ sectorSize
       (this (run (xWrite 0 (Sample.pdata (Sample.header 4096 0 0)) 0)
                Sample.started []).2)
     = JS.Num 32
  /\ pageSize
       (this (run (xWrite 0 (Sample.pdata (Sample.header 4096 0 0)) 0)
                Sample.started []).2)
     = JS.Num 32.
Proof. vm_compute. repeat split. Qed.

(** A header write that leaves no gap stores its bytes, and the buffer
    never shrinks. *)
Lemma header_write_stores fid pData off f v :
  PData.well_formed pData ->
  JS.ge (JS.Num off) (sectorSize f) = false ->
  0 <= off <= JS.zlen (headerSector f) ->
  let f' := this (run (xWrite fid pData off) f v).2 in
  off + JS.zlen (PData.value pData) <= JS.zlen (headerSector f')
  /\ JS.zlen (headerSector f) <= JS.zlen (headerSector f')
  /\ take (length (PData.value pData)) (drop (Z.to_nat off) (headerSector f'))
     = PData.value pData.
Proof.
  intros Hwf Hge Hoff.
  destruct (store_header_ok pData off f v [] Hwf Hoff)
    as (h & Hst & Hlen & Hmono & Hat & _).
  unfold xWrite, run, mbind, M_bind, self. red_state.
  rewrite Hge. cbn [negb]. rewrite Hst. red_state.
  destruct (off =? 0); [| by red_state].
  destruct (JS.truthy _).
  - destruct (collect_layout _) as [c w] eqn:Hcl.
    apply collect_layout_frame in Hcl as (_ & _ & Hh & _).
    cbn in Hh. destruct c; cbn; by rewrite Hh.
  - monad. done.
Qed.

(** A read inside the header region returns what the buffer holds there. *)
Lemma header_read_back db fid pData off f dest bytes :
  region_of f off = Header ->
  0 <= off ->
  PData.size pData = JS.zlen bytes ->
  length dest = length bytes ->
  take (length bytes) (drop (Z.to_nat off) (headerSector f)) = bytes ->
  run (xRead db fid pData off) f dest
  = (Normal VFS.SQLITE_OK, {| this := f; data := bytes; log := [] |}).
Proof.
  intros Hr Hoff Hsz Hd Hat.
  rewrite xRead_Header by done. rewrite Hsz.
  rewrite subarray_window by (pose proof (zlen_nonneg bytes); lia).
  replace (Z.to_nat (JS.zlen bytes)) with (length bytes)
    by (unfold JS.zlen; lia).
  rewrite Hat.
  rewrite set_overlay by (unfold JS.zlen; lia).
  rewrite <- Hd, drop_all, app_nil_r. reflexivity.
Qed.

(** C5, at a failing input.  On a fresh object (empty header buffer,
    sector size unset) four bytes are written at offset 4.  The buffer is
    grown by the length of the data, to 4 bytes, not to offset + length =
    8, so the copy at offset 4 raises a [RangeError]; the buffer is left
    with 4 zero bytes and holds none of the written bytes. *)
Theorem header_write_past_end_fails :
  run (xWrite 0 (Sample.pdata [1; 2; 3; 4]) 4) Sample.fresh []
  = (Throw JS.RangeError,
     {| this := set_headerSector [0; 0; 0; 0] Sample.fresh;
        data := []; log := [] |}).
Proof. vm_compute. reflexivity. Qed.

(** ** Reads while the sector size is unset *)

Lemma unset_sector_region f off :
  sectorSize f = JS.NaN -> region_of f off = Header.
Proof.
  intros Hs. unfold region_of, computedLength. rewrite Hs. reflexivity.
Qed.

(** C10.  While the sector size is unset, a read at any offset never
    signals the short read, fetches nothing and leaves the object alone;
    with a destination of [pData.size] bytes it returns [SQLITE_OK] and
    copies the slice of the header buffer at that offset (possibly empty)
    over the start of the destination. *)
Theorem unset_sector_reads_header db fid pData off f v :
  sectorSize f = JS.NaN ->
  (run (xRead db fid pData off) f v).1 <> Normal VFS.SQLITE_IOERR_SHORT_READ
  /\ log (run (xRead db fid pData off) f v).2 = []
  /\ this (run (xRead db fid pData off) f v).2 = f
  /\ (PData.size pData = JS.zlen v ->
      run (xRead db fid pData off) f v
      = (Normal VFS.SQLITE_OK,
         {| this := f;
            data :=
              JS.subarray (headerSector f) (JS.Num off)
                (JS.Num (off + PData.size pData))
              ++ drop (length (JS.subarray (headerSector f) (JS.Num off)
                                 (JS.Num (off + PData.size pData)))) v;
            log := [] |})).
Proof.
  intros Hs. rewrite xRead_Header by (by apply unset_sector_region).
  split; [| split; [| split]].
  - destruct (JS.set v _ 0); discriminate.
  - by destruct (JS.set v _ 0).
  - by destruct (JS.set v _ 0).
  - intros Hsz. rewrite set_overlay; [reflexivity |].
    rewrite Hsz. apply subarray_zlen, zlen_nonneg.
Qed.

Lemma unset_sector_reads_header_witness :
  (run (xRead Sample.storeA 0 (Sample.pdata [0; 0; 0; 0]) 6)
       Sample.partial [0; 0; 0; 0]).1
  <> Normal VFS.SQLITE_IOERR_SHORT_READ
  /\ run (xRead Sample.storeA 0 (Sample.pdata [0; 0; 0; 0]) 6)
         Sample.partial [0; 0; 0; 0]
     = (Normal VFS.SQLITE_OK,
        {| this := Sample.partial; data := [99; 215; 0; 0]; log := [] |}).
Proof.
  assert (Hs : sectorSize Sample.partial = JS.NaN) by (vm_compute; reflexivity).
  destruct (unset_sector_reads_header Sample.storeA 0 (Sample.pdata [0; 0; 0; 0]) 6
              Sample.partial [0; 0; 0; 0] Hs) as (Hshort & _ & _ & Hrun).
  split; [exact Hshort |].
  rewrite Hrun by reflexivity. vm_compute. reflexivity.
Defined.

(** ** Opening *)

Lemma find_dbFile_spec dbName : forall l acc,
  (foldl (bind_step dbName) acc l = acc
   /\ forall e, e ∈ l -> db_name e.2 <> dbName)
  \/ (exists e, foldl (bind_step dbName) acc l = Some e
               /\ e ∈ l /\ db_name e.2 = dbName).
Proof.
  induction l as [| e l IH]; intros acc.
  - left. split; [reflexivity |]. intros e He. by apply elem_of_nil in He.
  - cbn [foldl]. destruct (IH (bind_step dbName acc e)) as [[Hf Hno] | (e' & Hf & He' & Hn)].
    + unfold bind_step in *.
      destruct (String.eqb_spec (db_name e.2) dbName) as [Heq | Hne].
      * right. exists e. split; [done |]. split; [apply elem_of_cons; by left | done].
      * left. split; [done |]. intros x Hx.
        apply elem_of_cons in Hx as [-> | Hx]; [done | by apply Hno].
    + right. exists e'. split; [done |]. split; [apply elem_of_cons; by right | done].
Qed.

(** C9.  When no registered database file has the name derived from the
    journal name, the constructor raises its error and nothing else
    happens; when one has, the constructor returns an object bound to a
    registered file of that name (the last one in iteration order). *)
Theorem open_requires_database name mapIdToFile :
  ((forall e, e ∈ mapIdToFile -> db_name e.2 <> strip_journal name) ->
   constructor name mapIdToFile
   = Throw (JS.Error (not_found_message (strip_journal name))))
  /\ ((exists e, e ∈ mapIdToFile /\ db_name e.2 = strip_journal name) ->
      exists j e,
        constructor name mapIdToFile = Normal j
        /\ e ∈ mapIdToFile /\ db_name e.2 = strip_journal name
        /\ dbFileId j = e.1 /\ dbFile j = e.2 /\ idb j = db_idb e.2).
Proof.
  unfold constructor, find_dbFile.
  destruct (find_dbFile_spec (strip_journal name) mapIdToFile None)
    as [[Hf Hno] | (e & Hf & He & Hn)]; rewrite Hf.
  - split; [done |]. intros (e & He & Hn). by destruct (Hno e He).
  - split; [intros Hno; by destruct (Hno e He) |].
    intros _. destruct e as [id f]. eexists _, (id, f). by repeat split.
Qed.

Lemma open_requires_database_witness :
  constructor "other.db-journal" Sample.registry
  = Throw (JS.Error (not_found_message (strip_journal "other.db-journal")))
  /\ exists j e,
       constructor "test.db-journal" Sample.registry = Normal j
       /\ e ∈ Sample.registry /\ db_name e.2 = strip_journal "test.db-journal"
       /\ dbFileId j = e.1 /\ dbFile j = e.2 /\ idb j = db_idb e.2.
Proof.
  split.
  - apply (proj1 (open_requires_database "other.db-journal" Sample.registry)).
    intros e He. apply list_elem_of_singleton in He as ->. vm_compute. discriminate.
  - apply (proj2 (open_requires_database "test.db-journal" Sample.registry)).
    exists (5, Sample.db). split; [apply list_elem_of_singleton; reflexivity |].
    vm_compute. reflexivity.
Defined.

Example constructor_sample :
  constructor "test.db-journal" Sample.registry = Normal Sample.fresh.
Proof. reflexivity. Qed.

Example strip_journal_samples :
  strip_journal "test.db-journal" = "test.db"
  /\ strip_journal "a-journal-journal" = "a-journal"
  /\ strip_journal "-journal.db" = "-journal.db"
  /\ strip_journal "journal" = "journal".
Proof. repeat split. Qed.

(** ** Reading twice *)

(** [xRead] touches nothing but the cache, however it ends. *)
Lemma xRead_frame db fid pData off f v c w :
  run (xRead db fid pData off) f v = (c, w) -> same_but_cache f (this w).
Proof.
  destruct (region_of f off) eqn:Hr.
  - rewrite xRead_PastEnd by done. intros ?; simplify_eq/=.
    apply same_but_cache_refl.
  - destruct (decide (pageIndex f off = Some (cachedPageIndex f))) as [Hp | Hp].
    + rewrite xRead_Entries_hit, transfer_run by done.
      destruct (cachedPageEntry f) as [entry |];
        [destruct (JS.set v _ 0) |]; intros ?; simplify_eq/=;
        apply same_but_cache_refl.
    + rewrite xRead_Entries_miss by done.
      destruct (rebuild db _ _) as [c1 [g d lg]] eqn:Hrb.
      apply rebuild_frame in Hrb as (Hsame & _). cbn in Hsame.
      destruct c1 as [[] | e]; [| intros ?; by simplify_eq/=].
      rewrite transfer_run.
      destruct (cachedPageEntry g) as [entry |];
        [destruct (JS.set d _ 0) |]; intros ?; by simplify_eq/=.
  - rewrite xRead_Header by done.
    destruct (JS.set v _ 0); intros ?; simplify_eq/=; apply same_but_cache_refl.
Qed.

(** A read in the entries region that returns has left the page number of
    its slot in the cache, and a read that finds it there is served by
    [transfer] alone. *)
Lemma xRead_Entries_returns db fid pData off f v r w :
  region_of f off = Entries ->
  run (xRead db fid pData off) f v = (Normal r, w) ->
  pageIndex f off = Some (cachedPageIndex (this w))
  /\ finish (transfer off {| this := this w; data := v; log := [] |})
     = (Normal r, {| this := this w; data := data w; log := [] |}).
Proof.
  intros Hr.
  destruct (decide (pageIndex f off = Some (cachedPageIndex f))) as [Hp | Hp].
  - rewrite xRead_Entries_hit, transfer_run by done.
    destruct (cachedPageEntry f) as [entry |] eqn:He; [| discriminate].
    destruct (JS.set v _ 0) as [e | v'] eqn:Hset; [discriminate |].
    intros ?; simplify_eq/=. split; [done |].
    rewrite transfer_run. cbn. by rewrite He, Hset.
  - rewrite xRead_Entries_miss by done.
    destruct (rebuild db _ _) as [c1 [g d lg]] eqn:Hrb.
    apply rebuild_frame in Hrb as (Hsame & Hd & Hret). cbn in Hsame, Hd.
    destruct c1 as [[] | e]; [| discriminate].
    destruct (Hret eq_refl) as (p & Hp' & Hcp & _). cbn in Hcp.
    rewrite transfer_run.
    destruct (cachedPageEntry g) as [entry |] eqn:He; [| discriminate].
    destruct (JS.set d _ 0) as [e | v'] eqn:Hset; [discriminate |].
    intros ?; simplify_eq/=. split; [done |].
    rewrite transfer_run. cbn. by rewrite He, Hset.
Qed.

Lemma transfer_log off w c w' :
  transfer off w = (c, w') -> log w' = log w.
Proof.
  destruct w as [g d lg]. rewrite transfer_run.
  destruct (cachedPageEntry g); [destruct (JS.set d _ 0) |];
    intros ?; by simplify_eq/=.
Qed.

(** C8.  When a read returns, the same read issued again on the object it
    left behind, with the same store and the same destination, returns
    the same code and the same bytes, leaves the object as it is and does
    not ask the store for anything.  More generally, after a read in the
    entries region has returned, no read that looks up the same page
    number asks the store for anything. *)
Theorem repeated_read db fid pData off f r w1 :
  run (xRead db fid pData off) f (PData.value pData) = (Normal r, w1) ->
  (exists w2,
     run (xRead db fid pData off) (this w1) (PData.value pData) = (Normal r, w2)
     /\ data w2 = data w1
     /\ this w2 = this w1
     /\ fetches (log w2) = [])
  /\ (region_of f off = Entries ->
      forall fid' pData' off' v',
        pageIndex (this w1) off' = pageIndex f off ->
        fetches (log (run (xRead db fid' pData' off') (this w1) v').2) = []).
Proof.
  intros Hrun.
  pose proof (xRead_frame _ _ _ _ _ _ _ _ Hrun) as Hsame.
  split.
  - destruct (region_of f off) eqn:Hr.
    + rewrite xRead_PastEnd in Hrun by done. simplify_eq/=.
      rewrite xRead_PastEnd by done. eexists. by repeat split.
    + destruct (xRead_Entries_returns _ _ _ _ _ _ _ _ Hr Hrun) as [Hp Htr].
      rewrite xRead_Entries_hit;
        [| by rewrite (same_but_cache_region f)
         | by rewrite (same_but_cache_pageIndex f)].
      rewrite Htr. eexists. by repeat split.
    + rewrite xRead_Header in Hrun by done.
      destruct (JS.set _ _ 0) as [e | v'] eqn:Hset; [discriminate |].
      simplify_eq/=. rewrite xRead_Header by done. rewrite Hset.
      eexists. by repeat split.
  - intros Hr fid' pData' off' v' Hsamepage.
    destruct (xRead_Entries_returns _ _ _ _ _ _ _ _ Hr Hrun) as [Hp _].
    destruct (region_of (this w1) off') eqn:Hr'.
    + by rewrite xRead_PastEnd.
    + rewrite xRead_Entries_hit by (done || congruence).
      destruct (transfer off' _) as [c w'] eqn:Htr.
      apply transfer_log in Htr. cbn in Htr.
      destruct c; cbn; by rewrite Htr.
    + rewrite xRead_Header by done. by destruct (JS.set v' _ 0).
Qed.

Lemma repeated_read_witness :
  exists w2,
    run (xRead Sample.storeA 0 (Sample.pdata (replicate 16 0)) 32)
        Sample.replayed (replicate 16 0)
    = (Normal VFS.SQLITE_OK, w2)
    /\ data w2 = entry_layout 7 Sample.pageA (page_checksum 4096 8 Sample.pageA)
    /\ this w2 = Sample.replayed
    /\ fetches (log w2) = [].
Proof.
  assert (Hfirst :
    run (xRead Sample.storeA 0 (Sample.pdata (replicate 16 0)) 32)
        Sample.journaled (PData.value (Sample.pdata (replicate 16 0)))
    = (Normal VFS.SQLITE_OK,
       {| this := Sample.replayed;
          data := entry_layout 7 Sample.pageA (page_checksum 4096 8 Sample.pageA);
          log := [Get 1 "test.db" (JS.Num 6)] |}))
    by (vm_compute; reflexivity).
  destruct (repeated_read _ _ _ _ _ _ _ Hfirst) as [(w2 & Hrun & Hd & Ht & Hf) _].
  exists w2. split; [exact Hrun |]. split; [exact Hd |]. split; [exact Ht | exact Hf].
Defined.

(** ** What holds of every reachable object *)

Lemma invariant_fresh name mapIdToFile f :
  constructor name mapIdToFile = Normal f -> invariant f.
Proof.
  unfold constructor.
  destruct (find_dbFile _ _) as [[id d] |]; [| discriminate].
  intros [= <-]. constructor; cbn; done.
Qed.

Lemma invariant_cache f g : same_but_cache f g -> invariant f -> invariant g.
Proof. intros -> []. by constructor. Qed.

Lemma invariant_header h f :
  Forall JS.is_byte h -> invariant f -> invariant (set_headerSector h f).
Proof. intros Hh []. by constructor. Qed.

Lemma invariant_ledger idx val f :
  0 <= idx -> invariant f ->
  invariant (set_pageIndexes (JS.array_set (pageIndexes f) idx val) f).
Proof.
  intros Hidx [Hh Hs Hp Hn Hl Hsl]. constructor; cbn; try done.
  - unfold JS.array_set. cbn. destruct (_ && _); lia.
  - intros i v. unfold JS.array_get, JS.array_set. cbn.
    destruct (decide (idx = i)) as [<- | Hne].
    + intros _. split; [done |]. intros Hlt.
      destruct (Z.leb_spec 0 idx); [| lia].
      destruct (Z.ltb_spec idx (2 ^ 32 - 1)); [| lia].
      destruct (Z.leb_spec (JS.length_ (pageIndexes f)) idx); cbn; lia.
    + rewrite lookup_insert_ne by done. intros Hi.
      destruct (Hsl i v Hi) as [Hi0 Hlen]. split; [done |].
      intros Hlt. specialize (Hlen Hlt).
      destruct (_ && _) eqn:E; [| done].
      apply andb_prop in E as [_ E]. apply Z.leb_le in E. lia.
Qed.

Lemma or_else_size_field z old :
  0 <= z < 2 ^ 32 -> size_field old -> size_field (JS.or_else (JS.Num z) old).
Proof.
  intros Hz Hold. unfold JS.or_else.
  destruct (Z.eqb_spec z 0); [done |]. cbn. lia.
Qed.

Lemma collect_layout_invariant f v lg c w :
  invariant f ->
  collect_layout {| this := f; data := v; log := lg |} = (c, w) ->
  invariant (this w).
Proof.
  intros Hinv. pose proof Hinv as [Hh Hs Hp Hn Hl Hsl].
  unfold collect_layout. monad.
  destruct (JS.getUint32 (headerSector f) 12) as [e | n] eqn:En; red_state;
    [intros ?; by simplify_eq/= |].
  destruct (JS.getUint32 (headerSector f) 20) as [e | s] eqn:Es; red_state;
    [intros ?; simplify_eq/=; by constructor |].
  pose proof (getUint32_range _ _ _ Hh Es) as Hsr.
  pose proof (or_else_size_field s _ Hsr Hs) as Hs'.
  destruct (JS.getUint32 (headerSector f) 24) as [e | p] eqn:Ep; red_state;
    [intros ?; simplify_eq/=; by constructor |].
  pose proof (getUint32_range _ _ _ Hh Ep) as Hpr.
  intros ?; simplify_eq/=. constructor; cbn; try done.
  by apply or_else_size_field.
Qed.

(** The ledger slot of a write in the entries region is not negative. *)
Lemma entry_slot_nonneg f off :
  invariant f ->
  JS.ge (JS.Num off) (sectorSize f) = true ->
  JS.is_zero (JS.rem (JS.sub (JS.Num off) (sectorSize f)) (entrySize f)) = true ->
  0 <= JS.to_integer (JS.div (JS.sub (JS.Num off) (sectorSize f)) (entrySize f)).
Proof.
  intros [_ _ Hp _ _ _]. unfold entrySize.
  destruct (sectorSize f) as [| s]; [discriminate |].
  destruct (pageSize f) as [| ps]; [discriminate |].
  cbn in *. intros Hge _. apply Z.leb_le in Hge.
  destruct (Z.eqb_spec (ps + 8) 0); [lia |]. cbn.
  apply Z.quot_pos; lia.
Qed.

Lemma xWrite_invariant fid pData off f v :
  invariant f ->
  Forall JS.is_byte (PData.value pData) ->
  invariant (this (run (xWrite fid pData off) f v).2)
  /\ dbFile (this (run (xWrite fid pData off) f v).2) = dbFile f
  /\ dbFileId (this (run (xWrite fid pData off) f v).2) = dbFileId f.
Proof.
  intros Hinv Hbytes.
  unfold xWrite, run, mbind, M_bind, self. red_state.
  (* the first statement: header data, or a page index, or nothing *)
  assert (Hfirst : forall c w,
    (if negb (JS.ge (JS.Num off) (sectorSize f))
     then store_header pData off
     else if JS.is_zero (JS.rem (JS.sub (JS.Num off) (sectorSize f)) (entrySize f))
          then store_pageIndex pData off else mret ())
      {| this := f; data := v; log := [] |} = (c, w) ->
    invariant (this w) /\ dbFile (this w) = dbFile f
    /\ dbFileId (this w) = dbFileId f).
  { intros c w.
    destruct (JS.ge (JS.Num off) (sectorSize f)) eqn:Hge; cbn [negb].
    - destruct (JS.is_zero _) eqn:Hz.
      + unfold store_pageIndex. monad.
        destruct (JS.getUint32 _ 0) as [e | pi]; red_state;
          intros ?; simplify_eq/=; [done |].
        split; [| done]. apply invariant_ledger; [| done].
        by apply entry_slot_nonneg.
      + monad. intros ?; by simplify_eq/=.
    - intros Hst. apply store_header_frame in Hst as (_ & _ & h & -> & Hh).
      split; [| done]. apply invariant_header; [| done].
      apply Hh; [by destruct Hinv | done]. }
  match goal with
  | |- context [(if negb ?a then ?b else ?k) ?w0] =>
      destruct ((if negb a then b else k) w0) as [c1 w1] eqn:H1
  end.
  destruct (Hfirst c1 w1 eq_refl) as (Hi1 & Hd1 & Hid1).
  destruct c1 as [[] | e]; [| done].
  destruct (off =? 0); [| by monad].
  destruct (JS.truthy _).
  - destruct w1 as [g d lg]. cbn in *.
    destruct (collect_layout _) as [c2 w2] eqn:H2.
    pose proof (collect_layout_invariant _ _ _ _ _ Hi1 H2) as Hi2.
    apply collect_layout_frame in H2 as (_ & _ & _ & _ & _ & _ & Hd2 & Hid2).
    destruct c2; cbn; rewrite ?Hd2, ?Hid2; done.
  - monad. done.
Qed.

Lemma perform_invariant f c :
  invariant f -> call_bytes c ->
  invariant (perform f c)
  /\ dbFile (perform f c) = dbFile f
  /\ dbFileId (perform f c) = dbFileId f.
Proof.
  intros Hinv Hc. destruct c as [name fid fl | | db fid pData off
                                | fid pData off | fid n | fid fl | fid];
    cbn [perform].
  - monad. split; [| done]. destruct Hinv. by constructor.
  - done.
  - destruct (run (xRead db fid pData off) f (PData.value pData)) as [c w] eqn:Hr.
    apply xRead_frame in Hr. cbn.
    split; [by apply (invariant_cache f) |].
    by destruct (same_but_cache_fields _ _ Hr) as (_ & _ & _ & _ & _ & -> & ->).
  - destruct Hc as [Hv _]. by apply xWrite_invariant.
  - unfold xTruncate. monad.
    destruct (n <=? JS.zlen (headerSector f)); red_state;
      (split; [| done]); apply invariant_header; try done;
      apply subarray_bytes; by destruct Hinv.
  - done.
  - done.
Qed.

Lemma calls_invariant calls : forall f,
  invariant f -> Forall call_bytes calls ->
  invariant (foldl perform f calls)
  /\ dbFile (foldl perform f calls) = dbFile f
  /\ dbFileId (foldl perform f calls) = dbFileId f.
Proof.
  induction calls as [| c calls IH]; intros f Hinv Hb; [done |].
  apply Forall_cons in Hb as [Hc Hb]. cbn [foldl].
  destruct (perform_invariant f c Hinv Hc) as (Hi & Hd & Hid).
  destruct (IH (perform f c) Hi Hb) as (Hi' & Hd' & Hid').
  split; [done |]. split; congruence.
Qed.

(** Every reachable object satisfies the invariant: its size fields are
    unset or non-zero 32-bit values, its header holds bytes, and every
    assigned array index of the ledger lies below the ledger's length. *)
Theorem reachable_invariant f : reachable f -> invariant f.
Proof.
  intros (name & reg & f0 & calls & Hc & Hb & ->).
  apply calls_invariant; [| done]. by apply (invariant_fresh name reg).
Qed.

(** The binding made by the constructor stays for the life of the
    object. *)
Lemma binding_fixed name mapIdToFile f0 calls :
  constructor name mapIdToFile = Normal f0 ->
  Forall call_bytes calls ->
  dbFile (foldl perform f0 calls) = dbFile f0
  /\ dbFileId (foldl perform f0 calls) = dbFileId f0.
Proof.
  intros Hc Hb. apply calls_invariant; [| done].
  by apply (invariant_fresh name mapIdToFile).
Qed.

(** In a reachable object an assigned slot below 2^31 lies below the
    ledger's length, so a read of its entry is not a short read. *)
Lemma reachable_slot_length f i p :
  reachable f -> JS.array_get (pageIndexes f) i = Some p -> i < 2 ^ 31 ->
  0 <= i < JS.length_ (pageIndexes f).
Proof.
  intros Hr Hslot Hi. apply reachable_invariant in Hr as [_ _ _ _ _ Hsl].
  destruct (Hsl i p Hslot) as [H0 Hlen]. split; [done |].
  apply Hlen. change (2 ^ 32) with (2 * 2 ^ 31). lia.
Qed.

Example sample_reachable :
  reachable Sample.started /\ reachable Sample.journaled
  /\ reachable Sample.replayed /\ reachable Sample.partial
  /\ reachable Sample.wide.
Proof.
  repeat split.
  - exists "test.db-journal", Sample.registry, Sample.fresh,
      [WriteCall 0 (Sample.pdata (Sample.header 4096 32 8)) 0].
    split; [reflexivity |]. split; [| vm_compute; reflexivity].
    repeat constructor; vm_compute; intuition discriminate.
  - exists "test.db-journal", Sample.registry, Sample.fresh,
      [WriteCall 0 (Sample.pdata (Sample.header 4096 32 8)) 0;
       WriteCall 0 (Sample.pdata (JS.be32 7)) 32].
    split; [reflexivity |]. split; [| vm_compute; reflexivity].
    repeat constructor; vm_compute; intuition discriminate.
  - exists "test.db-journal", Sample.registry, Sample.fresh,
      [WriteCall 0 (Sample.pdata (Sample.header 4096 32 8)) 0;
       WriteCall 0 (Sample.pdata (JS.be32 7)) 32;
       ReadCall Sample.storeA 0 (Sample.pdata (replicate 16 0)) 32].
    split; [reflexivity |]. split; [| vm_compute; reflexivity].
    repeat constructor; vm_compute; intuition discriminate.
  - exists "test.db-journal", Sample.registry, Sample.fresh,
      [WriteCall 0 (Sample.pdata [217; 213; 5; 249; 32; 161; 99; 215]) 0].
    split; [reflexivity |]. split; [| vm_compute; reflexivity].
    repeat constructor; vm_compute; intuition discriminate.
  - exists "test.db-journal", Sample.registry, Sample.fresh,
      [WriteCall 0 (Sample.pdata (Sample.header 4096 512 512)) 0;
       WriteCall 0 (Sample.pdata (JS.be32 3)) 512].
    split; [reflexivity |]. split; [| vm_compute; reflexivity].
    repeat constructor; vm_compute; intuition discriminate.
Qed.

(** * Further properties of the code *)

(** ** Truncation *)

Lemma subarray_prefix (l : list JS.byte) (n : Z) :
  0 <= n -> JS.subarray l (JS.Num 0) (JS.Num n) = take (Z.to_nat n) l.
Proof.
  intros Hn. rewrite <- (Z.add_0_l n) at 1.
  rewrite subarray_window by lia. reflexivity.
Qed.

Lemma set_headerSector_same f : set_headerSector (headerSector f) f = f.
Proof. by destruct f. Qed.

(** X1.  [xTruncate] with a size between 0 and the length of the header
    buffer returns [SQLITE_OK], keeps exactly the first [iSize] bytes of
    the buffer, reports nothing and changes no other field. *)
Theorem truncate_keeps_prefix fid iSize f v :
  0 <= iSize <= JS.zlen (headerSector f) ->
  run (xTruncate fid iSize) f v
  = (Normal VFS.SQLITE_OK,
     {| this := set_headerSector (take (Z.to_nat iSize) (headerSector f)) f;
        data := v; log := [] |}).
Proof.
  intros [H0 Hlen]. unfold xTruncate. monad.
  destruct (Z.leb_spec iSize (JS.zlen (headerSector f))); [| lia].
  red_state. by rewrite subarray_prefix.
Qed.

Lemma truncate_keeps_prefix_witness :
  run (xTruncate 0 8) Sample.started []
  = (Normal VFS.SQLITE_OK,
     {| this := set_headerSector (take (Z.to_nat 8) (headerSector Sample.started))
                  Sample.started;
        data := []; log := [] |}).
Proof.
  apply (truncate_keeps_prefix 0 8 Sample.started []).
  vm_compute. split; discriminate.
Defined.

(** X2.  [xTruncate] with a size beyond the length of the header buffer
    fails its [console.assert], which only reports: the call still returns
    [SQLITE_OK] and the object is left exactly as it was (the buffer is
    not extended). *)
Theorem truncate_beyond_length fid iSize f v :
  JS.zlen (headerSector f) < iSize ->
  run (xTruncate fid iSize) f v
  = (Normal VFS.SQLITE_OK, {| this := f; data := v; log := [ConsoleAssert] |}).
Proof.
  intros Hlen. pose proof (zlen_nonneg (headerSector f)).
  unfold xTruncate. monad.
  destruct (Z.leb_spec iSize (JS.zlen (headerSector f))); [lia |].
  red_state. rewrite subarray_prefix by lia.
  rewrite take_ge by (unfold JS.zlen in *; lia).
  by rewrite set_headerSector_same.
Qed.

Lemma truncate_beyond_length_witness :
  run (xTruncate 0 100) Sample.started []
  = (Normal VFS.SQLITE_OK,
     {| this := Sample.started; data := []; log := [ConsoleAssert] |}).
Proof.
  apply (truncate_beyond_length 0 100 Sample.started []).
  vm_compute. reflexivity.
Defined.

(** ** The header buffer and the entries *)

Lemma rebuild_header db pi h f v lg :
  rebuild db pi {| this := set_headerSector h f; data := v; log := lg |}
  = ((rebuild db pi {| this := f; data := v; log := lg |}).1,
     with_header h (rebuild db pi {| this := f; data := v; log := lg |}).2).
Proof.
  unfold rebuild, fetch, with_header. destruct pi as [p |]; monad; [| reflexivity].
  destruct (db !! (db_name (dbFile f), p - 1)) as [block |]; red_state;
    [| reflexivity].
  unfold entrySize, checksum. red_state.
  destruct (JS.new_Int8Array _) as [e | e0]; red_state; [reflexivity |].
  destruct (JS.setUint32 e0 _ _) as [e | e1]; red_state; [reflexivity |].
  destruct (JS.set e1 block 4) as [e | e2]; red_state; [reflexivity |].
  destruct (JS.setUint32 e2 _ _) as [e | e3]; red_state; reflexivity.
Qed.

Lemma transfer_header off h w :
  transfer off (with_header h w)
  = ((transfer off w).1, with_header h (transfer off w).2).
Proof.
  destruct w as [f v lg]. unfold with_header. red_state.
  rewrite !transfer_run. red_state. unfold entrySize. red_state.
  destruct (cachedPageEntry f) as [entry |]; [| reflexivity].
  destruct (JS.set v _ 0); reflexivity.
Qed.

(** Outside the header region [xRead] does not look at the header
    buffer. *)
Lemma xRead_ignores_header db fid pData off h f v :
  region_of f off <> Header ->
  run (xRead db fid pData off) (set_headerSector h f) v
  = ((run (xRead db fid pData off) f v).1,
     with_header h (run (xRead db fid pData off) f v).2).
Proof.
  intros Hr.
  assert (Hreg : region_of (set_headerSector h f) off = region_of f off)
    by reflexivity.
  assert (Hpi : pageIndex (set_headerSector h f) off = pageIndex f off)
    by reflexivity.
  destruct (region_of f off) eqn:Hrf; [| | done].
  - rewrite !xRead_PastEnd by done. reflexivity.
  - destruct (decide (pageIndex f off = Some (cachedPageIndex f))) as [Hp | Hp].
    + rewrite !xRead_Entries_hit by done.
      change {| this := set_headerSector h f; data := v; log := [] |}
        with (with_header h {| this := f; data := v; log := [] |}).
      rewrite transfer_header.
      destruct (transfer off _) as [[[] | e] w]; reflexivity.
    + rewrite !xRead_Entries_miss by done. rewrite Hpi, rebuild_header.
      destruct (rebuild db _ _) as [[[] | e] w]; cbn [fst snd]; [| reflexivity].
      rewrite transfer_header.
      destruct (transfer off w) as [[[] | e] w']; reflexivity.
Qed.

(** X3.  Truncating the header, to any size, leaves the ledger and the
    apparent file length as they were, and every read outside the header
    region (an entry read or a short read) returns the same code, delivers
    the same bytes and has the same effects as it would have had without
    the truncation. *)
Theorem truncate_keeps_entries fid iSize f v0 :
  pageIndexes (this (run (xTruncate fid iSize) f v0).2) = pageIndexes f
  /\ computedLength (this (run (xTruncate fid iSize) f v0).2) = computedLength f
  /\ forall db fid' pData off v,
       region_of f off <> Header ->
       (run (xRead db fid' pData off) (this (run (xTruncate fid iSize) f v0).2) v).1
       = (run (xRead db fid' pData off) f v).1
       /\ data (run (xRead db fid' pData off)
                  (this (run (xTruncate fid iSize) f v0).2) v).2
          = data (run (xRead db fid' pData off) f v).2
       /\ log (run (xRead db fid' pData off)
                 (this (run (xTruncate fid iSize) f v0).2) v).2
          = log (run (xRead db fid' pData off) f v).2.
Proof.
  assert (Ht : exists h, this (run (xTruncate fid iSize) f v0).2
                         = set_headerSector h f).
  { unfold xTruncate. monad.
    destruct (iSize <=? JS.zlen (headerSector f)); red_state; eauto. }
  destruct Ht as [h ->].
  split; [reflexivity |]. split; [reflexivity |].
  intros db fid' pData off v Hr.
  rewrite xRead_ignores_header by done. done.
Qed.

Lemma truncate_keeps_entries_witness :
  (run (xRead Sample.storeA 0 (Sample.pdata (replicate 16 0)) 32)
       (this (run (xTruncate 0 0) Sample.journaled []).2) (replicate 16 0)).1
  = (run (xRead Sample.storeA 0 (Sample.pdata (replicate 16 0)) 32)
         Sample.journaled (replicate 16 0)).1.
Proof.
  refine (proj1 (proj2 (proj2 (truncate_keeps_entries 0 0 Sample.journaled []))
                   Sample.storeA 0 (Sample.pdata (replicate 16 0)) 32
                   (replicate 16 0) _)).
  vm_compute. discriminate.
Defined.

(** ** The reported size *)

(** X4.  [xFileSize] returns [SQLITE_OK] and hands [pSize64] the apparent
    length [sectorSize + pageIndexes.length * entrySize] without changing
    the object, and [xRead] signals a short read exactly at the offsets
    that are at or beyond this length; while a size is unset the length is
    [NaN] and no read is short. *)
Theorem file_size_bounds_reads fid f v :
  run (xFileSize fid) f v
  = (Normal (computedLength f, VFS.SQLITE_OK), {| this := f; data := v; log := [] |})
  /\ forall db fid' pData off v',
       (run (xRead db fid' pData off) f v').1 = Normal VFS.SQLITE_IOERR_SHORT_READ
       <-> JS.ge (JS.Num off) (computedLength f) = true.
Proof.
  split; [reflexivity |].
  intros db fid' pData off v'.
  assert (Hreg : region_of f off = PastEnd
                 <-> JS.ge (JS.Num off) (computedLength f) = true).
  { unfold region_of. destruct (JS.ge (JS.Num off) (computedLength f)); [done |].
    split; [| done]. by destruct (JS.ge (JS.Num off) (sectorSize f)). }
  rewrite <- Hreg.
  destruct (region_of f off) eqn:Hr.
  - rewrite xRead_PastEnd by done. done.
  - split; [| done].
    destruct (decide (pageIndex f off = Some (cachedPageIndex f))) as [Hp | Hp].
    + rewrite xRead_Entries_hit by done.
      destruct (transfer off _) as [[[] | e] w]; discriminate.
    + rewrite xRead_Entries_miss by done.
      destruct (rebuild db _ _) as [[[] | e] w]; [| discriminate].
      destruct (transfer off _) as [[[] | e] w']; discriminate.
  - split; [| done]. rewrite xRead_Header by done.
    destruct (JS.set v' _ 0); discriminate.
Qed.

Example file_size_samples :
  (run (xFileSize 0) Sample.fresh []).1 = Normal (JS.NaN, VFS.SQLITE_OK)
  /\ (run (xFileSize 0) Sample.started []).1 = Normal (JS.Num 32, VFS.SQLITE_OK)
  /\ (run (xFileSize 0) Sample.journaled []).1 = Normal (JS.Num 48, VFS.SQLITE_OK).
Proof. vm_compute. repeat split. Qed.

(** ** What a write can change *)

Lemma written_same f :
  f = written (headerSector f) (pageIndexes f) (nonce f) (sectorSize f)
        (pageSize f) f.
Proof. destruct f; reflexivity. Qed.

Lemma collect_layout_shape f v lg c w :
  collect_layout {| this := f; data := v; log := lg |} = (c, w) ->
  exists n s p,
    this w = written (headerSector f) (pageIndexes f) n s p f.
Proof.
  unfold collect_layout. monad.
  destruct (JS.getUint32 (headerSector f) 12) as [e | n]; red_state.
  { intros ?; simplify_eq/=. eexists _, _, _. apply written_same. }
  destruct (JS.getUint32 (headerSector f) 20) as [e | s]; red_state.
  { intros ?; simplify_eq/=. exists (JS.Num n), (sectorSize f), (pageSize f).
    destruct f; reflexivity. }
  destruct (JS.getUint32 (headerSector f) 24) as [e | p]; red_state.
  { intros ?; simplify_eq/=.
    exists (JS.Num n), (JS.or_else (JS.Num s) (sectorSize f)), (pageSize f).
    destruct f; reflexivity. }
  intros ?; simplify_eq/=.
  exists (JS.Num n), (JS.or_else (JS.Num s) (sectorSize f)),
    (JS.or_else (JS.Num p) (JS.or_else (JS.Num s) (sectorSize f))).
  destruct f; reflexivity.
Qed.

(** Whatever the arguments and however the call ends, [xWrite] leaves the
    cache, the binding, the flags and the metadata alone, and the ledger
    is the old one or the old one with one slot assigned. *)
Lemma xWrite_shape fid pData off f v :
  exists h pi n s p,
    this (run (xWrite fid pData off) f v).2 = written h pi n s p f
    /\ (pi = pageIndexes f
        \/ exists idx val, pi = JS.array_set (pageIndexes f) idx val).
Proof.
  unfold xWrite, run, mbind, M_bind, self. red_state.
  assert (Hfirst : forall c w,
    (if negb (JS.ge (JS.Num off) (sectorSize f))
     then store_header pData off
     else if JS.is_zero (JS.rem (JS.sub (JS.Num off) (sectorSize f)) (entrySize f))
          then store_pageIndex pData off else mret ())
      {| this := f; data := v; log := [] |} = (c, w) ->
    exists h pi,
      this w = set_pageIndexes pi (set_headerSector h f)
      /\ (pi = pageIndexes f
          \/ exists idx val, pi = JS.array_set (pageIndexes f) idx val)).
  { intros c w.
    destruct (JS.ge (JS.Num off) (sectorSize f)); cbn [negb].
    - destruct (JS.is_zero _).
      + unfold store_pageIndex. monad.
        destruct (JS.getUint32 _ 0) as [e | pi]; red_state;
          intros ?; simplify_eq/=.
        * exists (headerSector f), (pageIndexes f).
          split; [destruct f; reflexivity | by left].
        * eexists (headerSector f), _. split; [destruct f; reflexivity |].
          right. eauto.
      + monad. intros ?; simplify_eq/=.
        exists (headerSector f), (pageIndexes f). split; [destruct f; reflexivity | by left].
    - intros Hst. apply store_header_frame in Hst as (_ & _ & h & -> & _).
      exists h, (pageIndexes f). split; [destruct f; reflexivity | by left]. }
  match goal with
  | |- context [(if negb ?a then ?b else ?k) ?w0] =>
      destruct ((if negb a then b else k) w0) as [c1 w1] eqn:H1
  end.
  destruct (Hfirst c1 w1 eq_refl) as (h & pi & Hw1 & Hpi).
  assert (Hbase : this w1 = written h pi (nonce f) (sectorSize f) (pageSize f) f)
    by (rewrite Hw1; destruct f; reflexivity).
  destruct c1 as [[] | e]; [| by exists h, pi, (nonce f), (sectorSize f), (pageSize f)].
  destruct (off =? 0);
    [| monad; by exists h, pi, (nonce f), (sectorSize f), (pageSize f)].
  destruct (JS.truthy _).
  - destruct w1 as [g d lg]. cbn [this] in *.
    destruct (collect_layout _) as [c2 w2] eqn:H2.
    apply collect_layout_shape in H2 as (n & s & p & Hw2).
    exists h, pi, n, s, p. split; [| done].
    destruct c2; cbn; rewrite Hw2, Hw1; destruct f; reflexivity.
  - monad. by exists h, pi, (nonce f), (sectorSize f), (pageSize f).
Qed.

Lemma array_set_keeps (a : JS.array) (idx val : Z) :
  JS.length_ a <= JS.length_ (JS.array_set a idx val)
  /\ forall i, is_Some (JS.array_get a i) ->
               is_Some (JS.array_get (JS.array_set a idx val) i).
Proof.
  unfold JS.array_set, JS.array_get. cbn. split.
  - destruct (_ && _) eqn:E; [| lia].
    apply andb_prop in E as [_ E]. apply Z.leb_le in E. lia.
  - intros i Hi. destruct (decide (idx = i)) as [-> | Hne].
    + rewrite lookup_insert_eq. eauto.
    + by rewrite lookup_insert_ne.
Qed.

Lemma perform_keeps_ledger f c :
  JS.length_ (pageIndexes f) <= JS.length_ (pageIndexes (perform f c))
  /\ forall i, is_Some (JS.array_get (pageIndexes f) i) ->
               is_Some (JS.array_get (pageIndexes (perform f c)) i).
Proof.
  destruct c as [name fid fl | | db fid pData off
                | fid pData off | fid n | fid fl | fid]; cbn [perform];
    try (split; [reflexivity | done]).
  - destruct (run (xRead db fid pData off) f (PData.value pData)) as [c w] eqn:Hr.
    apply xRead_frame in Hr. cbn [snd].
    destruct (same_but_cache_fields _ _ Hr) as (_ & _ & _ & -> & _). done.
  - destruct (xWrite_shape fid pData off f (PData.value pData))
      as (h & pi & n & s & p & -> & [-> | (idx & val & ->)]); cbn.
    + done.
    + apply array_set_keeps.
  - unfold xTruncate. monad.
    destruct (n <=? JS.zlen (headerSector f)); red_state; done.
Qed.

(** X5.  No sequence of calls ever shrinks the ledger: its length never
    decreases and a slot that holds a page number keeps holding one,
    whatever is written, truncated, read, reopened or closed afterwards
    (clearing the header at the end of a transaction included). *)
Theorem ledger_never_shrinks calls : forall f,
  JS.length_ (pageIndexes f) <= JS.length_ (pageIndexes (foldl perform f calls))
  /\ forall i, is_Some (JS.array_get (pageIndexes f) i) ->
               is_Some (JS.array_get (pageIndexes (foldl perform f calls)) i).
Proof.
  induction calls as [| c calls IH]; intros f; [done |].
  cbn [foldl].
  destruct (perform_keeps_ledger f c) as [Hl Hs].
  destruct (IH (perform f c)) as [Hl' Hs'].
  split; [lia | auto].
Qed.

Lemma ledger_never_shrinks_witness :
  is_Some (JS.array_get
             (pageIndexes
                (foldl perform Sample.journaled
                   [WriteCall 0 (Sample.pdata [0]) 0; TruncateCall 0 0;
                    WriteCall 0 (Sample.pdata (Sample.header 5 32 8)) 0]))
             0).
Proof.
  apply (ledger_never_shrinks
           [WriteCall 0 (Sample.pdata [0]) 0; TruncateCall 0 0;
            WriteCall 0 (Sample.pdata (Sample.header 5 32 8)) 0]
           Sample.journaled).
  vm_compute. eauto.
Defined.

(** ** The name *)

Lemma perform_keeps_metadata f c :
  (forall name fid fl, c <> OpenCall name fid fl) ->
  metadata (perform f c) = metadata f /\ flags (perform f c) = flags f.
Proof.
  intros Hc.
  destruct c as [name fid fl | | db fid pData off
                | fid pData off | fid n | fid fl | fid]; cbn [perform];
    try done.
  - by destruct (Hc name fid fl).
  - destruct (run (xRead db fid pData off) f (PData.value pData)) as [c w] eqn:Hr.
    apply xRead_frame in Hr. cbn [snd]. by rewrite Hr.
  - destruct (xWrite_shape fid pData off f (PData.value pData))
      as (h & pi & n & s & p & -> & _). done.
  - unfold xTruncate. monad.
    destruct (n <=? JS.zlen (headerSector f)); red_state; done.
Qed.

(** X6.  The [name] getter raises a [TypeError] on an object that was
    constructed but never opened; [xOpen] returns [SQLITE_OK], reports 0 as
    output flags and touches nothing but the flags and the metadata; and
    from then on the getter returns the name given to [xOpen], whatever
    calls other than [xOpen] follow. *)
Theorem name_after_open name mapIdToFile f0 :
  constructor name mapIdToFile = Normal f0 ->
  (forall v, (run get_name f0 v).1 = Throw JS.TypeError)
  /\ forall f n fid fl v,
       run (xOpen n fid fl) f v
       = (Normal (0, VFS.SQLITE_OK),
          {| this := set_open fl n f; data := v; log := [] |})
       /\ forall calls v',
            Forall (fun c => forall n' fid' fl', c <> OpenCall n' fid' fl') calls ->
            (run get_name (foldl perform (perform f (OpenCall n fid fl)) calls) v').1
            = Normal n.
Proof.
  intros Hc. split.
  - intros v. unfold constructor in Hc.
    destruct (find_dbFile _ _) as [[id d] |]; [| discriminate].
    injection Hc as <-. reflexivity.
  - intros f n fid fl v. split; [reflexivity |].
    intros calls v' Hcalls.
    assert (Hm : forall calls g,
              Forall (fun c => forall n' fid' fl', c <> OpenCall n' fid' fl') calls ->
              metadata (foldl perform g calls) = metadata g).
    { clear. induction calls as [| c calls IH]; intros g Hcs; [done |].
      apply Forall_cons in Hcs as [Hc Hcs]. cbn [foldl].
      rewrite IH by done. by apply perform_keeps_metadata. }
    unfold get_name. monad. rewrite Hm by done. reflexivity.
Qed.

Lemma name_after_open_witness :
  (run get_name Sample.fresh []).1 = Throw JS.TypeError
  /\ (run get_name
        (foldl perform (perform Sample.fresh (OpenCall "test.db-journal" 9 2048))
           [WriteCall 0 (Sample.pdata (Sample.header 4096 32 8)) 0; CloseCall])
        []).1
     = Normal "test.db-journal".
Proof.
  assert (Hc : constructor "test.db-journal" Sample.registry = Normal Sample.fresh)
    by reflexivity.
  destruct (name_after_open _ _ _ Hc) as [Hfresh Hopen].
  split; [apply Hfresh |].
  apply (Hopen Sample.fresh "test.db-journal" 9 2048 []).
  repeat constructor; discriminate.
Defined.

(** ** What a read can change *)

Lemma xRead_log db fid pData off f v :
  log (run (xRead db fid pData off) f v).2 = []
  \/ log (run (xRead db fid pData off) f v).2 = [ConsoleWarn "short read"]
  \/ exists k,
       log (run (xRead db fid pData off) f v).2
       = [Get (db_idb (dbFile f)) (db_name (dbFile f)) k].
Proof.
  destruct (region_of f off) eqn:Hr.
  - rewrite xRead_PastEnd by done. right. by left.
  - destruct (decide (pageIndex f off = Some (cachedPageIndex f))) as [Hp | Hp].
    + rewrite xRead_Entries_hit by done.
      destruct (transfer off _) as [c w] eqn:Htr.
      apply transfer_log in Htr. destruct c; cbn; left; by rewrite Htr.
    + rewrite xRead_Entries_miss by done.
      destruct (rebuild db _ _) as [c1 w1] eqn:Hrb.
      apply rebuild_log in Hrb as [k Hk]. cbn in Hk.
      destruct c1 as [[] | e]; [| right; right; eauto].
      destruct (transfer off w1) as [c w] eqn:Htr.
      apply transfer_log in Htr. right. right. exists k.
      destruct c; cbn; by rewrite Htr.
  - rewrite xRead_Header by done. left. by destruct (JS.set v _ 0).
Qed.

(** X7.  However it ends, [xRead] changes nothing of the object but the
    reconstruction cache (header buffer, layout fields, ledger, binding,
    flags and metadata stay, and so does the apparent file length), never
    sends a commit notification, and asks the store at most once. *)
Theorem read_touches_cache_only db fid pData off f v :
  this (run (xRead db fid pData off) f v).2
  = set_cachedPageEntry (cachedPageEntry (this (run (xRead db fid pData off) f v).2))
      (set_cachedPageIndex
         (cachedPageIndex (this (run (xRead db fid pData off) f v).2)) f)
  /\ computedLength (this (run (xRead db fid pData off) f v).2) = computedLength f
  /\ (forall d, Commit d ∉ log (run (xRead db fid pData off) f v).2)
  /\ (length (fetches (log (run (xRead db fid pData off) f v).2)) <= 1)%nat.
Proof.
  destruct (run (xRead db fid pData off) f v) as [c w] eqn:Hr.
  pose proof (xRead_frame _ _ _ _ _ _ _ _ Hr) as Hsame.
  pose proof (xRead_log db fid pData off f v) as Hlog. rewrite Hr in Hlog.
  cbn [snd] in *.
  split; [exact Hsame |]. split; [by rewrite Hsame |].
  destruct Hlog as [-> | [-> | [k ->]]]; split;
    try (intros d Hd; apply list_elem_of_singleton in Hd; discriminate);
    try (intros d Hd; by apply elem_of_nil in Hd);
    vm_compute; lia.
Qed.

(** ** The binding chosen by the constructor *)

(** X8.  The loop of the constructor does not stop at the first match:
    when several registered files have the derived name, the journal is
    bound to the last of them in the iteration order of the map. *)
Theorem constructor_binds_last name before id d after :
  db_name d = strip_journal name ->
  (forall e, e ∈ after -> db_name e.2 <> strip_journal name) ->
  exists j,
    constructor name (before ++ (id, d) :: after) = Normal j
    /\ dbFileId j = id /\ dbFile j = d /\ idb j = db_idb d.
Proof.
  intros Hd Hafter. unfold constructor, find_dbFile.
  rewrite foldl_app. cbn [foldl].
  assert (Hstep : bind_step (strip_journal name)
                    (foldl (bind_step (strip_journal name)) None before) (id, d)
                  = Some (id, d)).
  { unfold bind_step. cbn [snd]. rewrite Hd. by rewrite String.eqb_refl. }
  rewrite Hstep.
  destruct (find_dbFile_spec (strip_journal name) after (Some (id, d)))
    as [[-> _] | (e & _ & He & Hn)].
  - eexists. by repeat split.
  - by destruct (Hafter e He).
Qed.

Lemma constructor_binds_last_witness :
  exists j,
    constructor "test.db-journal"
      ([(1, {| db_name := "test.db"; db_idb := 10 |})]
       ++ (2, {| db_name := "test.db"; db_idb := 20 |})
       :: [(3, {| db_name := "other.db"; db_idb := 30 |})])
    = Normal j
    /\ dbFileId j = 2 /\ dbFile j = {| db_name := "test.db"; db_idb := 20 |}
    /\ idb j = db_idb {| db_name := "test.db"; db_idb := 20 |}.
Proof.
  apply (constructor_binds_last "test.db-journal"
           [(1, {| db_name := "test.db"; db_idb := 10 |})] 2
           {| db_name := "test.db"; db_idb := 20 |}
           [(3, {| db_name := "other.db"; db_idb := 30 |})]).
  - reflexivity.
  - intros e He. apply list_elem_of_singleton in He as ->.
    vm_compute. discriminate.
Defined.

(** ** The derived database name *)

Lemma substring_split (s : string) : forall m,
  (m <= String.length s)%nat ->
  s = String.substring 0 m s +:+ String.substring m (String.length s - m) s.
Proof.
  induction s as [| c s IH]; intros m Hm.
  - destruct m; [reflexivity | cbn in Hm; lia].
  - destruct m as [| m].
    + simpl. by rewrite substring_all.
    + transitivity (String c (String.substring 0 m s
                              +:+ String.substring m (String.length s - m) s));
        [| reflexivity].
      f_equal. apply IH. cbn in Hm. lia.
Qed.

(** X9.  The database name derived from a journal name: the name
    [dbName-journal] gives back [dbName], and a name that is not of this
    form is its own database name (only a suffix is stripped, and only
    once). *)
Theorem strip_journal_inverse :
  (forall dbName, strip_journal (dbName +:+ journal_suffix) = dbName)
  /\ (forall name,
        (forall dbName, name <> dbName +:+ journal_suffix) ->
        strip_journal name = name).
Proof.
  split; [apply strip_journal_suffix |].
  intros name Hname. unfold strip_journal.
  destruct (Nat.leb_spec (String.length journal_suffix) (String.length name))
    as [Hle | Hlt]; [| reflexivity].
  cbn [andb].
  destruct (String.eqb_spec
              (String.substring (String.length name - String.length journal_suffix)
                 (String.length journal_suffix) name) journal_suffix)
    as [Heq | Hne]; [| reflexivity].
  exfalso.
  apply (Hname (String.substring 0
                  (String.length name - String.length journal_suffix) name)).
  pose proof (substring_split name
                (String.length name - String.length journal_suffix)
                ltac:(lia)) as Hsplit.
  replace (String.length name - (String.length name - String.length journal_suffix))%nat
    with (String.length journal_suffix) in Hsplit by lia.
  rewrite Heq in Hsplit. exact Hsplit.
Qed.

Lemma strip_journal_inverse_witness :
  strip_journal ("test.db" +:+ journal_suffix) = "test.db"
  /\ strip_journal "test.db" = "test.db".
Proof.
  split.
  - apply (proj1 strip_journal_inverse).
  - apply (proj2 strip_journal_inverse "test.db").
    intros dbName H.
    assert (Hl : String.length "test.db"
                 = String.length (dbName +:+ journal_suffix)) by (by rewrite <- H).
    rewrite length_append in Hl. cbn in Hl. lia.
Defined.

(** ** Sizes of reachable objects *)

(** X10.  In every object the constructor and any calls with proper bytes
    can produce, the sector size and the page size are unset or positive
    32-bit values, never zero; so the entry size, once known, is at least
    9 and the quotient and remainder by it are defined; the nonce is set
    whenever the sector size is; and every assigned array index of the
    ledger lies below its length. *)
Theorem reachable_sizes f :
  reachable f ->
  size_field (sectorSize f) /\ size_field (pageSize f)
  /\ match entrySize f with JS.NaN => True | JS.Num es => 8 < es end
  /\ (is_set (sectorSize f) -> is_set (nonce f))
  /\ forall i p, JS.array_get (pageIndexes f) i = Some p ->
                 i < 2 ^ 32 - 1 -> 0 <= i < JS.length_ (pageIndexes f).
Proof.
  intros (name & reg & f0 & calls & Hc & Hb & ->).
  destruct (calls_invariant calls f0 (invariant_fresh _ _ _ Hc) Hb)
    as [[_ Hs Hp Hn _ Hsl] _].
  split; [done |]. split; [done |]. split.
  - unfold entrySize. destruct (pageSize _) as [| ps]; cbn in *; [done | lia].
  - split; [done |]. intros i p Hi Hlt.
    destruct (Hsl i p Hi) as [H0 Hlen]. auto.
Qed.

Lemma reachable_sizes_witness :
  size_field (sectorSize Sample.journaled)
  /\ size_field (pageSize Sample.journaled)
  /\ match entrySize Sample.journaled with JS.NaN => True | JS.Num es => 8 < es end
  /\ (is_set (sectorSize Sample.journaled) -> is_set (nonce Sample.journaled))
  /\ forall i p, JS.array_get (pageIndexes Sample.journaled) i = Some p ->
                 i < 2 ^ 32 - 1 -> 0 <= i < JS.length_ (pageIndexes Sample.journaled).
Proof.
  apply (reachable_sizes Sample.journaled).
  exists "test.db-journal", Sample.registry, Sample.fresh,
    [WriteCall 0 (Sample.pdata (Sample.header 4096 32 8)) 0;
     WriteCall 0 (Sample.pdata (JS.be32 7)) 32].
  split; [reflexivity |]. split; [| vm_compute; reflexivity].
  repeat constructor; vm_compute; intuition discriminate.
Defined.

(** ** Writing the header and reading it back *)

(** In an object that satisfies the invariant, an offset below the sector
    size (or any offset while the sector size is unset) is in the header
    region. *)
Lemma header_region f off :
  invariant f -> JS.ge (JS.Num off) (sectorSize f) = false ->
  region_of f off = Header.
Proof.
  intros [_ Hs Hp _ Hl _] Hge. unfold region_of. rewrite Hge.
  unfold computedLength, entrySize.
  destruct (sectorSize f) as [| s]; [reflexivity |].
  destruct (pageSize f) as [| ps]; [reflexivity |].
  cbn in *. apply Z.leb_gt in Hge.
  destruct (Z.leb_spec (s + JS.length_ (pageIndexes f) * (ps + 8)) off);
    [nia | reflexivity].
Qed.

(** A write below the sector size at an offset other than 0 changes the
    header buffer only. *)
Lemma xWrite_header_only fid pData off f v :
  off <> 0 -> JS.ge (JS.Num off) (sectorSize f) = false ->
  exists h, this (run (xWrite fid pData off) f v).2 = set_headerSector h f.
Proof.
  intros Hoff Hge. unfold xWrite, run, mbind, M_bind, self. red_state.
  rewrite Hge. cbn [negb].
  destruct (store_header pData off _) as [c w] eqn:Hst.
  apply store_header_frame in Hst as (_ & _ & h & Hw & _).
  exists h. destruct (Z.eqb_spec off 0); [done |].
  destruct c; monad; done.
Qed.

(** X11.  The header buffer is a growable byte array: on a reachable
    object, bytes written in the header region at an offset inside the
    buffer or right at its end (so that no gap arises) are returned
    unchanged by a read of the same offset and length, whether or not the
    write went on to parse the header and raised. *)
Theorem header_round_trip db fid fid' pData off f v dest :
  reachable f ->
  PData.well_formed pData ->
  Forall JS.is_byte (PData.value pData) ->
  JS.ge (JS.Num off) (sectorSize f) = false ->
  0 <= off <= JS.zlen (headerSector f) ->
  length dest = length (PData.value pData) ->
  run (xRead db fid' pData off) (this (run (xWrite fid pData off) f v).2) dest
  = (Normal VFS.SQLITE_OK,
     {| this := this (run (xWrite fid pData off) f v).2;
        data := PData.value pData; log := [] |}).
Proof.
  intros Hreach Hwf Hbytes Hge Hoff Hdest.
  pose proof (reachable_invariant f Hreach) as Hinv.
  destruct (xWrite_invariant fid pData off f v Hinv Hbytes) as (Hinv' & _).
  destruct (header_write_stores fid pData off f v Hwf Hge Hoff)
    as (_ & _ & Hat).
  assert (Hge' : JS.ge (JS.Num off)
                   (sectorSize (this (run (xWrite fid pData off) f v).2)) = false).
  { destruct (decide (off = 0)) as [-> | Hne].
    - apply size_field_header_branch. by destruct Hinv'.
    - destruct (xWrite_header_only fid pData off f v Hne Hge) as [h ->]. done. }
  apply header_read_back; try done.
  - by apply header_region.
  - lia.
Qed.

Lemma header_round_trip_witness :
  run (xRead Sample.storeA 0 (Sample.pdata [1; 2; 3; 4]) 28)
      (this (run (xWrite 0 (Sample.pdata [1; 2; 3; 4]) 28) Sample.started []).2)
      [0; 0; 0; 0]
  = (Normal VFS.SQLITE_OK,
     {| this := this (run (xWrite 0 (Sample.pdata [1; 2; 3; 4]) 28)
                        Sample.started []).2;
        data := PData.value (Sample.pdata [1; 2; 3; 4]); log := [] |}).
Proof.
  apply (header_round_trip Sample.storeA 0 0 (Sample.pdata [1; 2; 3; 4]) 28
           Sample.started [] [0; 0; 0; 0]).
  - exists "test.db-journal", Sample.registry, Sample.fresh,
      [WriteCall 0 (Sample.pdata (Sample.header 4096 32 8)) 0].
    split; [reflexivity |]. split; [| vm_compute; reflexivity].
    repeat constructor; vm_compute; intuition discriminate.
  - reflexivity.
  - repeat constructor; vm_compute; intuition discriminate.
  - vm_compute. reflexivity.
  - vm_compute. split; discriminate.
  - reflexivity.
Defined.

(** ** A header that carries the three fields *)

Lemma be32_fields v :
  exists b0 b1 b2 b3,
    JS.be32 v = [b0; b1; b2; b3]
    /\ (0 <= v < 2 ^ 32 -> JS.of_be32 b0 b1 b2 b3 = v).
Proof.
  eexists _, _, _, _. split; [reflexivity |].
  intros Hv. pose proof (of_be32_be32 v Hv) as H. exact H.
Qed.

(** X12.  Encoding and decoding of the layout fields: a header of at
    least 28 bytes with a non-zero first byte, written at offset 0, leaves
    the object with the nonce found at byte 12, the sector size at byte 20
    and the page size at byte 24, read as big-endian 32-bit values,
    whenever the two sizes are not zero. *)
Theorem header_fields_round_trip fid pData f v b pre mid n s p tl :
  size_field (sectorSize f) ->
  PData.well_formed pData ->
  PData.value pData
  = (b :: pre) ++ JS.be32 n ++ mid ++ JS.be32 s ++ JS.be32 p ++ tl ->
  b <> 0 -> length pre = 11%nat -> length mid = 4%nat ->
  0 <= n < 2 ^ 32 -> 0 < s < 2 ^ 32 -> 0 < p < 2 ^ 32 ->
  (run (xWrite fid pData 0) f v).1 = Normal VFS.SQLITE_OK
  /\ nonce (this (run (xWrite fid pData 0) f v).2) = JS.Num n
  /\ sectorSize (this (run (xWrite fid pData 0) f v).2) = JS.Num s
  /\ pageSize (this (run (xWrite fid pData 0) f v).2) = JS.Num p.
Proof.
  intros Hsec Hwf Hv Hb Hpre Hmid Hn Hs Hp.
  pose proof Hv as Hvalue.
  destruct (store_header_ok pData 0 f v [] Hwf) as (h & Hst & _ & _ & Hat & _);
    [pose proof (zlen_nonneg (headerSector f)); lia |].
  change (Z.to_nat 0) with 0%nat in Hat. rewrite drop_0 in Hat.
  assert (Hh : h = PData.value pData ++ drop (length (PData.value pData)) h)
    by (rewrite <- Hat at 1; by rewrite take_drop).
  destruct (be32_fields n) as (n0 & n1 & n2 & n3 & En & Hn').
  destruct (be32_fields s) as (s0 & s1 & s2 & s3 & Es & Hs').
  destruct (be32_fields p) as (p0 & p1 & p2 & p3 & Ep & Hp').
  destruct mid as [| m0 [| m1 [| m2 [| m3 [| ? ?]]]]]; try discriminate.
  do 11 (destruct pre as [| ? pre]; [discriminate |]).
  destruct pre; [| discriminate].
  rewrite Hv, En, Es, Ep in Hh. cbn [app] in Hh.
  assert (H12 : JS.getUint32 h 12 = inr n).
  { rewrite Hh, <- Hn' by lia. unfold JS.getUint32.
    change (Z.to_nat 12) with 12%nat. reflexivity. }
  assert (H20 : JS.getUint32 h 20 = inr s).
  { rewrite Hh, <- Hs' by lia. unfold JS.getUint32.
    change (Z.to_nat 20) with 20%nat. reflexivity. }
  assert (H24 : JS.getUint32 h 24 = inr p).
  { rewrite Hh, <- Hp' by lia. unfold JS.getUint32.
    change (Z.to_nat 24) with 24%nat. reflexivity. }
  pose proof (header_fields_collected fid pData f v b _ h n s p
                Hsec Hwf Hvalue Hb Hst H12 H20 H24) as Hrun.
  rewrite Hrun.
  cbn [fst snd this nonce sectorSize pageSize set_pageSize set_sectorSize set_nonce].
  unfold JS.or_else.
  destruct (Z.eqb_spec s 0); [lia |]. destruct (Z.eqb_spec p 0); [lia |].
  done.
Qed.

Lemma header_fields_round_trip_witness :
  (run (xWrite 0 (Sample.pdata (Sample.header 4096 512 4096)) 0) Sample.fresh []).1
  = Normal VFS.SQLITE_OK
  /\ nonce (this (run (xWrite 0 (Sample.pdata (Sample.header 4096 512 4096)) 0)
                    Sample.fresh []).2) = JS.Num 4096
  /\ sectorSize (this (run (xWrite 0 (Sample.pdata (Sample.header 4096 512 4096)) 0)
                         Sample.fresh []).2) = JS.Num 512
  /\ pageSize (this (run (xWrite 0 (Sample.pdata (Sample.header 4096 512 4096)) 0)
                       Sample.fresh []).2) = JS.Num 4096.
Proof.
  apply (header_fields_round_trip 0 (Sample.pdata (Sample.header 4096 512 4096))
           Sample.fresh [] 217 [213; 5; 249; 32; 161; 99; 215; 0; 0; 0; 0]
           [0; 0; 0; 0] 4096 512 4096 []).
  - exact I.
  - reflexivity.
  - reflexivity.
  - discriminate.
  - reflexivity.
  - reflexivity.
  - lia.
  - lia.
  - lia.
Defined.

Lemma journaled_page_read_back_witness :
  (read_chunks Sample.storeA
     (this (run (xWrite 0 (Sample.pdata (JS.be32 7)) (32 + 0 * (8 + 8)))
              Sample.started []).2)
     (32 + 0 * (8 + 8)) [replicate 4 0; replicate 8 0; replicate 4 0]).1
  = Some (entry_layout (JS.of_be32 0 0 0 7) Sample.pageA
            (page_checksum 4096 8 Sample.pageA)).
Proof.
  apply (journaled_page_read_back Sample.storeA 0 (Sample.pdata (JS.be32 7))
           Sample.started [] 32 8 4096 0 0 0 0 7 [] Sample.pageA
           [replicate 4 0; replicate 8 0; replicate 4 0]).
  - vm_compute. reflexivity.
  - lia.
  - vm_compute. reflexivity.
  - lia.
  - vm_compute. reflexivity.
  - lia.
  - vm_compute. reflexivity.
  - vm_compute. reflexivity.
  - vm_compute. reflexivity.
  - vm_compute. discriminate.
  - repeat constructor; discriminate.
  - vm_compute. reflexivity.
Defined.

(** ** Blocks that are missing or of the wrong size *)

(** [transfer] on an object whose cache holds an entry of the right
    length. *)
Lemma transfer_window g s ps i k e b lg :
  sectorSize g = JS.Num s -> pageSize g = JS.Num ps ->
  0 <= i < 2 ^ 31 -> 0 <= k < ps + 8 -> k + JS.zlen b <= ps + 8 ->
  cachedPageEntry g = Some e -> JS.zlen e = ps + 8 ->
  finish (transfer (s + i * (ps + 8) + k) {| this := g; data := b; log := lg |})
  = (Normal VFS.SQLITE_OK,
     {| this := g; data := take (length b) (drop (Z.to_nat k) e); log := lg |}).
Proof.
  intros Hs Hps Hi Hk Hkb He Hz.
  rewrite transfer_run, He. unfold entrySize. rewrite Hs, Hps. cbn [JS.add].
  destruct (entry_arith s (ps + 8) i k Hi Hk) as [_ ->].
  cbn [JS.add]. rewrite subarray_window by (pose proof (zlen_nonneg b); lia).
  assert (Hl : length (take (Z.to_nat (JS.zlen b)) (drop (Z.to_nat k) e))
               = length b).
  { rewrite length_take, length_drop. unfold JS.zlen in *. lia. }
  rewrite set_overlay by (unfold JS.zlen at 1; rewrite Hl; reflexivity).
  rewrite Hl, drop_all, app_nil_r. cbn.
  do 3 f_equal. unfold JS.zlen. lia.
Qed.

(** X14.  A slot whose page has no block in the store.  The sector size,
    the page size (at least 0) and the nonce are set; slot [i], with
    0 <= i < 2^31 and [i] below the length of the ledger, holds page
    number [p]; the offset lies [k] bytes into the entry of the slot,
    0 <= k < entrySize; the cache does not name page [p]; and the store
    has no block for page [p].  Then the read asks the store once, raises
    a [TypeError] and leaves the object, cache included, and the
    destination exactly as they were.  (When the cache names page [p]
    the store is not asked at all.) *)
Theorem missing_block_read db fid pData f v s ps n i p k :
  slot_ready f s ps n i p ->
  cachedPageIndex f <> p ->
  db !! (db_name (dbFile f), p - 1) = None ->
  0 <= k < ps + 8 ->
  run (xRead db fid pData (s + i * (ps + 8) + k)) f v
  = (Throw JS.TypeError,
     {| this := f; data := v;
        log := [Get (db_idb (dbFile f)) (db_name (dbFile f)) (JS.Num (p - 1))] |}).
Proof.
  intros Hready Hcache Hdb Hk.
  destruct (slot_region f s ps n i p k Hready Hk) as [Hreg Hpi].
  rewrite xRead_Entries_miss by (rewrite ?Hpi; congruence).
  rewrite Hpi. unfold rebuild, fetch. monad. rewrite Hdb. reflexivity.
Qed.

Lemma missing_block_read_witness :
  run (xRead ∅ 0 (Sample.pdata [0; 0; 0; 0]) (32 + 0 * (8 + 8) + 0))
      Sample.journaled [0; 0; 0; 0]
  = (Throw JS.TypeError,
     {| this := Sample.journaled; data := [0; 0; 0; 0];
        log := [Get (db_idb (dbFile Sample.journaled))
                  (db_name (dbFile Sample.journaled)) (JS.Num (7 - 1))] |}).
Proof.
  apply (missing_block_read ∅ 0 (Sample.pdata [0; 0; 0; 0]) Sample.journaled
           [0; 0; 0; 0] 32 8 4096 0 7 0).
  - constructor; try lia; vm_compute; reflexivity.
  - vm_compute. discriminate.
  - reflexivity.
  - lia.
Defined.

(** X15.  A slot whose block is more than four bytes longer than the page
    size.  The sector size, the page size (at least 0) and the nonce are
    set; slot [i], with 0 <= i < 2^31 and [i] below the length of the
    ledger, holds page number [p]; the offset lies [k] bytes into the
    entry of the slot, 0 <= k < entrySize, and the destination ends
    inside the entry; the cache does not name page [p]; and the block the
    store holds for page [p] has more than pageSize + 4 bytes.  Then the
    read asks the store once and raises a [RangeError] when it copies the
    block, after the cache has already been given the page number and a
    fresh entry that holds only the page number; the destination is
    untouched.  The next read at the same offset into the same
    destination, whatever the store holds by then, finds the page number
    in the cache, asks the store nothing and returns [SQLITE_OK] with the
    bytes of that entry: the page number followed by zeros. *)
Theorem oversized_block_read db fid pData f v s ps n i p content k :
  slot_ready f s ps n i p ->
  cachedPageIndex f <> p ->
  db !! (db_name (dbFile f), p - 1) = Some content ->
  ps + 4 < JS.zlen content ->
  0 <= k < ps + 8 -> k + JS.zlen v <= ps + 8 ->
  run (xRead db fid pData (s + i * (ps + 8) + k)) f v
  = (Throw JS.RangeError,
     {| this := set_cachedPageEntry
                  (Some (JS.be32 p ++ replicate (Z.to_nat (ps + 4)) 0))
                  (set_cachedPageIndex p f);
        data := v;
        log := [Get (db_idb (dbFile f)) (db_name (dbFile f)) (JS.Num (p - 1))] |})
  /\ forall db' fid' pData',
       run (xRead db' fid' pData' (s + i * (ps + 8) + k))
           (set_cachedPageEntry
              (Some (JS.be32 p ++ replicate (Z.to_nat (ps + 4)) 0))
              (set_cachedPageIndex p f)) v
       = (Normal VFS.SQLITE_OK,
          {| this := set_cachedPageEntry
                       (Some (JS.be32 p ++ replicate (Z.to_nat (ps + 4)) 0))
                       (set_cachedPageIndex p f);
             data := take (length v)
                       (drop (Z.to_nat k)
                          (JS.be32 p ++ replicate (Z.to_nat (ps + 4)) 0));
             log := [] |}).
Proof.
  intros Hready Hcache Hdb Hlong Hk Hkv.
  destruct (slot_region f s ps n i p k Hready Hk) as [Hreg Hpi].
  pose proof Hready as [Hs Hps Hn Hps0 Hi Hslot Hlen].
  set (e1 := JS.be32 p ++ replicate (Z.to_nat (ps + 4)) 0).
  assert (Hz : JS.zlen e1 = ps + 8).
  { unfold e1. rewrite zlen_app, zlen_be32, zlen_replicate by lia. lia. }
  split.
  - rewrite xRead_Entries_miss by (rewrite ?Hpi; congruence).
    rewrite Hpi.
    assert (H1 : JS.new_Int8Array (JS.Num (ps + 8))
                 = inr (replicate (Z.to_nat (ps + 8)) 0)).
    { unfold JS.new_Int8Array. destruct (Z.ltb_spec (ps + 8) 0); [lia | done]. }
    assert (H2 : JS.setUint32 (replicate (Z.to_nat (ps + 8)) 0) (JS.Num 0) (JS.Num p)
                 = inr e1).
    { rewrite setUint32_at by (rewrite ?zlen_replicate; lia).
      unfold JS.to_uint32. rewrite be32_mod.
      change (Z.to_nat 0) with 0%nat. rewrite take_0, app_nil_l, drop_replicate.
      unfold e1. do 3 f_equal. lia. }
    assert (H3 : JS.set e1 content 4 = inl JS.RangeError).
    { unfold JS.set. rewrite Hz.
      destruct (Z.ltb_spec (ps + 8) (JS.zlen content + 4)); [| lia].
      by rewrite orb_true_r. }
    unfold rebuild, fetch.
    unfold mbind, M_bind, mret, M_ret, self, update, emit, lift, throw. cbn.
    rewrite Hdb. unfold entrySize. cbn. rewrite Hps. cbn.
    rewrite H1. cbn. rewrite H2. cbn. rewrite H3. reflexivity.
  - intros db' fid' pData'.
    set (g := set_cachedPageEntry (Some e1) (set_cachedPageIndex p f)).
    assert (Hsame : same_but_cache f g) by (unfold g, same_but_cache; by destruct f).
    rewrite xRead_Entries_hit;
      [| by rewrite (same_but_cache_region f)
       | by rewrite (same_but_cache_pageIndex f)].
    by apply (transfer_window g s ps i k e1 v []).
Qed.

Lemma oversized_block_read_witness :
  run (xRead {[ ("test.db", 6) := replicate 13 1 ]} 0 (Sample.pdata (replicate 16 9))
         (32 + 0 * (8 + 8) + 0))
      (set_cachedPageEntry (Some (JS.be32 7 ++ replicate (Z.to_nat (8 + 4)) 0))
         (set_cachedPageIndex 7 Sample.journaled))
      (replicate 16 9)
  = (Normal VFS.SQLITE_OK,
     {| this := set_cachedPageEntry
                  (Some (JS.be32 7 ++ replicate (Z.to_nat (8 + 4)) 0))
                  (set_cachedPageIndex 7 Sample.journaled);
        data := take (length (replicate 16 9))
                  (drop (Z.to_nat 0) (JS.be32 7 ++ replicate (Z.to_nat (8 + 4)) 0));
        log := [] |}).
Proof.
  refine (proj2 (oversized_block_read {[ ("test.db", 6) := replicate 13 1 ]} 0
                   (Sample.pdata (replicate 16 9)) Sample.journaled
                   (replicate 16 9) 32 8 4096 0 7 (replicate 13 1) 0
                   _ _ _ _ _ _) _ _ _).
  - constructor; try lia; vm_compute; reflexivity.
  - vm_compute. discriminate.
  - vm_compute. reflexivity.
  - vm_compute. reflexivity.
  - lia.
  - vm_compute. discriminate.
Defined.

(** ** Blocks shorter than a page *)

(** Once the sum is [NaN] it stays [NaN]. *)
Lemma checksum_loop_NaN bytes : forall fuel x,
  checksum_loop fuel bytes JS.NaN x = JS.NaN.
Proof.
  induction fuel as [| fuel IH]; intros x; [reflexivity |].
  cbn [checksum_loop]. destruct (JS.gt x (JS.Num 0)); [| reflexivity].
  apply IH.
Qed.

(** The first sampled offset is [pageSize - 200]: a block that ends at or
    before it has [undefined] there. *)
Lemma checksum_short f bytes ps :
  pageSize f = JS.Num ps -> 200 < ps -> JS.zlen bytes <= ps - 200 ->
  checksum f bytes = JS.NaN.
Proof.
  intros Hps Hbig Hlen. unfold checksum. rewrite Hps. cbn [JS.sub].
  unfold checksum_fuel. cbn [JS.to_integer].
  destruct (Z.to_nat (ps - 200)) as [| fuel] eqn:Hfuel; [lia |].
  cbn [checksum_loop JS.gt JS.to_integer].
  destruct (Z.ltb_spec 0 (ps - 200)); [| lia].
  assert (Hidx : JS.index bytes (ps - 200) = None).
  { unfold JS.index. destruct (Z.ltb_spec (ps - 200) 0); [done |].
    apply lookup_ge_None. unfold JS.zlen in Hlen. lia. }
  rewrite Hidx. cbn [from_option].
  replace (JS.add (nonce f) JS.NaN) with JS.NaN by (by destruct (nonce f)).
  apply checksum_loop_NaN.
Qed.

(** [rebuild] on a block that ends at or before the first sampled
    offset. *)
Lemma rebuild_short db f v p (content : list JS.byte) ps :
  pageSize f = JS.Num ps -> 200 < ps ->
  db !! (db_name (dbFile f), p - 1) = Some content ->
  JS.zlen content <= ps - 200 ->
  run (rebuild db (Some p)) f v
  = (Normal tt,
     {| this := set_cachedPageEntry
                  (Some (JS.be32 p ++ content
                         ++ replicate (Z.to_nat (ps + 4 - JS.zlen content)) 0))
                  (set_cachedPageIndex p f);
        data := v;
        log := [Get (db_idb (dbFile f)) (db_name (dbFile f)) (JS.Num (p - 1))] |}).
Proof.
  intros Hps Hbig Hdb Hlen.
  pose proof (zlen_nonneg content) as Hc0.
  set (pad := replicate (Z.to_nat (ps + 4 - JS.zlen content)) (0 : JS.byte)).
  set (pad' := replicate (Z.to_nat (ps - JS.zlen content)) (0 : JS.byte)).
  assert (Hpad : JS.zlen pad = ps + 4 - JS.zlen content)
    by (apply zlen_replicate; lia).
  assert (Hsplit : pad = pad' ++ JS.be32 0).
  { unfold pad, pad'. change (JS.be32 0) with (replicate 4 (0 : JS.byte)).
    rewrite <- replicate_add. f_equal. lia. }
  assert (H1 : JS.new_Int8Array (JS.Num (ps + 8))
               = inr (replicate (Z.to_nat (ps + 8)) 0)).
  { unfold JS.new_Int8Array. destruct (Z.ltb_spec (ps + 8) 0); [lia | done]. }
  assert (H2 : JS.setUint32 (replicate (Z.to_nat (ps + 8)) 0) (JS.Num 0) (JS.Num p)
               = inr (JS.be32 p ++ replicate (length content) 0 ++ pad)).
  { rewrite setUint32_at by (rewrite ?zlen_replicate; lia).
    unfold JS.to_uint32. rewrite be32_mod.
    change (Z.to_nat 0) with 0%nat. rewrite take_0, app_nil_l.
    do 2 f_equal. unfold pad. rewrite drop_replicate, <- replicate_add.
    f_equal. unfold JS.zlen in *. lia. }
  assert (H3 : JS.set (JS.be32 p ++ replicate (length content) 0 ++ pad) content 4
               = inr (JS.be32 p ++ content ++ pad)).
  { apply set_middle; [done |]. unfold JS.zlen. by rewrite length_replicate. }
  assert (Hck : checksum (set_cachedPageIndex p f) content = JS.NaN)
    by (by apply (checksum_short _ _ ps)).
  assert (Hz : JS.zlen (JS.be32 p ++ content ++ pad) = ps + 8)
    by (rewrite !zlen_app, zlen_be32; unfold JS.byte in *; lia).
  assert (H4 : JS.setUint32 (JS.be32 p ++ content ++ pad) (JS.Num (ps + 8 - 4))
                 (checksum (set_cachedPageIndex p f) content)
               = inr (JS.be32 p ++ content ++ pad)).
  { rewrite setUint32_at by lia.
    rewrite Hck. change (JS.to_uint32 JS.NaN) with 0.
    rewrite drop_ge by (unfold JS.zlen in Hz; lia).
    rewrite app_nil_r, Hsplit, !app_assoc. f_equal. f_equal.
    apply take_app_length'. rewrite !length_app. unfold pad'.
    rewrite length_replicate. change (length (JS.be32 p)) with 4%nat.
    unfold JS.zlen, JS.byte in *. lia. }
  unfold run, rebuild, fetch.
  unfold mbind, M_bind, mret, M_ret, self, update, emit, lift, throw. cbn.
  rewrite Hdb. unfold entrySize. cbn. rewrite Hps. cbn.
  rewrite H1. cbn. rewrite H2. cbn. rewrite H3. cbn. rewrite H4. reflexivity.
Qed.

(** X16.  A slot whose block ends at or before offset pageSize - 200, the
    first offset the checksum samples.  The sector size, the page size
    (more than 200) and the nonce are set; slot [i], with 0 <= i < 2^31
    and [i] below the length of the ledger, holds page number [p]; the
    offset lies [k] bytes into the entry of the slot, 0 <= k < entrySize,
    and the destination ends inside the entry; the cache does not name
    page [p]; and the block the store holds for page [p] has at most
    pageSize - 200 bytes.  Then the sampled byte is [undefined], the sum
    is [NaN] and the checksum field is written as 0: the read asks the
    store once, builds and caches the page number followed by the block
    and zeros up to the entry size, and returns [SQLITE_OK] with the
    requested part of it. *)
Theorem short_block_read db fid pData f v s ps n i p (content : list JS.byte) k :
  slot_ready f s ps n i p ->
  cachedPageIndex f <> p ->
  db !! (db_name (dbFile f), p - 1) = Some content ->
  200 < ps -> JS.zlen content <= ps - 200 ->
  0 <= k < ps + 8 -> k + JS.zlen v <= ps + 8 ->
  run (xRead db fid pData (s + i * (ps + 8) + k)) f v
  = (Normal VFS.SQLITE_OK,
     {| this := set_cachedPageEntry
                  (Some (JS.be32 p ++ content
                         ++ replicate (Z.to_nat (ps + 4 - JS.zlen content)) 0))
                  (set_cachedPageIndex p f);
        data := take (length v)
                  (drop (Z.to_nat k)
                     (JS.be32 p ++ content
                      ++ replicate (Z.to_nat (ps + 4 - JS.zlen content)) 0));
        log := [Get (db_idb (dbFile f)) (db_name (dbFile f)) (JS.Num (p - 1))] |}).
Proof.
  intros Hready Hcache Hdb Hbig Hlen Hk Hkv.
  destruct (slot_region f s ps n i p k Hready Hk) as [Hreg Hpi].
  pose proof Hready as [Hs Hps Hn Hps0 Hi Hslot Hl].
  pose proof (zlen_nonneg content) as Hc0.
  rewrite xRead_Entries_miss by (rewrite ?Hpi; congruence).
  rewrite Hpi.
  pose proof (rebuild_short db f v p content ps Hps Hbig Hdb Hlen) as Hrun.
  unfold run in Hrun. rewrite Hrun.
  apply transfer_window; try done.
  rewrite !zlen_app, zlen_be32, zlen_replicate by lia. lia.
Qed.

Lemma short_block_read_witness :
  run (xRead {[ ("test.db", 2) := replicate 100 5 ]} 0
         (Sample.pdata (replicate 8 9)) (512 + 0 * (512 + 8) + 512))
      Sample.wide (replicate 8 9)
  = (Normal VFS.SQLITE_OK,
     {| this := set_cachedPageEntry
                  (Some (JS.be32 3 ++ replicate 100 5
                         ++ replicate (Z.to_nat (512 + 4 - JS.zlen (replicate 100 5))) 0))
                  (set_cachedPageIndex 3 Sample.wide);
        data := take (length (replicate 8 9))
                  (drop (Z.to_nat 512)
                     (JS.be32 3 ++ replicate 100 5
                      ++ replicate (Z.to_nat (512 + 4 - JS.zlen (replicate 100 5))) 0));
        log := [Get (db_idb (dbFile Sample.wide)) (db_name (dbFile Sample.wide))
                  (JS.Num (3 - 1))] |}).
Proof.
  apply (short_block_read {[ ("test.db", 2) := replicate 100 5 ]} 0
           (Sample.pdata (replicate 8 9)) Sample.wide (replicate 8 9)
           512 512 4096 0 3 (replicate 100 5) 512).
  - constructor; try lia; vm_compute; reflexivity.
  - vm_compute. discriminate.
  - vm_compute. reflexivity.
  - lia.
  - vm_compute. discriminate.
  - lia.
  - vm_compute. discriminate.
Defined.

(** ** The order of entry writes *)






